(** * services: the Angi Clone listing application (src/app.js)

    A shallow embedding of the two React components of [src/app.js],
    [FirebaseProvider] and [AngiCloneAppContent], and of the part of the
    JavaScript runtime and of the Firebase SDK they rely on.

    - [JS]        strings as sequences of UTF-16 code units, truthiness,
                  [String.prototype.trim], [Array.prototype.sort];
    - [Eff]       a state-and-exception monad in which the event handlers
                  are written ([try]/[catch]/[finally], [await] of an SDK
                  call whose settlement is an input of the model);
    - [Firestore] the documents of the listings collection and the
                  write requests made to it;
    - [Content]   [AngiCloneAppContent]: the snapshot listener,
                  [handleAddService], [handleDeleteService];
    - [Provider]  [FirebaseProvider]: mount effect, [signInUser], the
                  [onAuthStateChanged] callback, [handleSignOut], render;
    - [Listing]   sequences of create and delete operations and the
                  order of the published list. *)

From Stdlib Require Import List Bool ZArith NArith Lia.
From Stdlib Require Import String Ascii.
From Stdlib Require Import Permutation Sorted.
Import ListNotations.

Set Implicit Arguments.

(* ===================================================================== *)
(** ** The JavaScript values the program manipulates *)
(* ===================================================================== *)

Module JS.

(** A JavaScript string is a finite sequence of 16-bit code units. *)
Definition code_unit := N.
Definition jsstring := list code_unit.

(** String literals of the source (all of them are ASCII). *)
Definition lit (s : string) : jsstring :=
  map N_of_ascii (list_ascii_of_string s).

(** [ToBoolean] on the values the program tests: a string is falsy when
    it is empty, [null] is falsy, an object is truthy. *)
Definition truthy_string (s : jsstring) : bool :=
  match s with [] => false | _ :: _ => true end.

Definition truthy_nullable_string (v : option jsstring) : bool :=
  match v with None => false | Some s => truthy_string s end.

Definition truthy_object {A : Type} (v : option A) : bool :=
  match v with None => false | Some _ => true end.

(** The code units [String.prototype.trim] strips: the WhiteSpace and
    LineTerminator productions of ECMAScript. *)
Definition white_space_code_units : list N :=
  [ 9; 10; 11; 12; 13; 32; 160; 5760;
    8192; 8193; 8194; 8195; 8196; 8197; 8198; 8199; 8200; 8201; 8202;
    8232; 8233; 8239; 8287; 12288; 65279 ]%N.

Definition isWhiteSpace (c : code_unit) : bool :=
  existsb (N.eqb c) white_space_code_units.

Fixpoint trimStart (s : jsstring) : jsstring :=
  match s with
  | [] => []
  | c :: s' => if isWhiteSpace c then trimStart s' else s
  end.

Definition trimEnd (s : jsstring) : jsstring :=
  rev (trimStart (rev s)).

Definition trim (s : jsstring) : jsstring :=
  trimEnd (trimStart s).

(** [Array.prototype.sort(compareFn)].  The comparator returns a number,
    of which only the sign is used; the sort is stable.  For a comparator
    that is a difference of keys, as the one of the program, the result
    is determined by these two facts; it is computed here by a stable
    insertion sort. *)
Section Sort.
Variable A : Type.
Variable compareFn : A -> A -> Z.

Fixpoint insert (x : A) (l : list A) : list A :=
  match l with
  | [] => [x]
  | y :: l' =>
      if (compareFn x y <=? 0)%Z then x :: y :: l'
      else y :: insert x l'
  end.

Fixpoint sort (l : list A) : list A :=
  match l with
  | [] => []
  | x :: l' => insert x (sort l')
  end.
End Sort.

(** [a] may come before [b] in a list in descending order of [key]. *)
Definition key_ge {A : Type} (key : A -> Z) (a b : A) : Prop :=
  (key b <= key a)%Z.

End JS.

Export JS.

(* ===================================================================== *)
(** ** Event handlers as state transformers that may throw *)
(* ===================================================================== *)

(** An event handler runs against the state of the application and of
    the backend ([W]), and a step of it either completes normally or
    throws.  The thrown value is only ever passed to [console.error] by
    the program, so it is not represented.  An [await] of an SDK call is
    a step whose settlement (fulfilled or rejected) is given to the model
    from outside; each handler is run to completion. *)
Module Eff.

Inductive completion (A : Type) : Type :=
| Normal (a : A)
| Thrown.
Arguments Thrown {A}.

Definition M (W A : Type) : Type := W -> completion A * W.

Section Ops.
Variable W : Type.

Definition ret {A} (a : A) : M W A := fun w => (Normal a, w).

Definition bind {A B} (m : M W A) (k : A -> M W B) : M W B :=
  fun w =>
    match m w with
    | (Normal a, w') => k a w'
    | (Thrown, w') => (Thrown, w')
    end.

Definition throw {A} : M W A := fun w => (Thrown, w).

Definition get : M W W := fun w => (Normal w, w).

Definition modify (f : W -> W) : M W unit := fun w => (Normal tt, f w).

(** [try { body } catch (e) { handler }] *)
Definition try_catch {A} (body handler : M W A) : M W A :=
  fun w =>
    match body w with
    | (Normal a, w') => (Normal a, w')
    | (Thrown, w') => handler w'
    end.

(** [try { body } finally { final }]: [final] runs however [body]
    completes; a completion of [body] survives a normal completion
    of [final]. *)
Definition try_finally {A} (body : M W A) (final : M W unit) : M W A :=
  fun w =>
    let (c, w') := body w in
    match final w' with
    | (Normal _, w'') => (c, w'')
    | (Thrown, w'') => (Thrown, w'')
    end.

(** [try { body } catch (e) { handler } finally { final }] *)
Definition try_catch_finally {A}
           (body handler : M W A) (final : M W unit) : M W A :=
  try_finally (try_catch body handler) final.

(** The world a handler leaves behind. *)
Definition exec {A} (m : M W A) (w : W) : W := snd (m w).

(** A property of the world that a handler keeps, however it completes. *)
Definition preserves {A} (P : W -> Prop) (m : M W A) : Prop :=
  forall w, P w -> P (exec m w).
End Ops.

Arguments ret {W A} a.
Arguments throw {W A}.
Arguments get {W}.

Declare Scope eff_scope.
Delimit Scope eff_scope with eff.
Notation "x <- m ;; k" := (bind m (fun x => k))
  (at level 61, m at next level, right associativity) : eff_scope.
Notation "m ;; k" := (bind m (fun _ => k))
  (at level 61, right associativity) : eff_scope.

End Eff.

Import Eff.
Local Open Scope eff_scope.

(* ===================================================================== *)
(** ** The document store behind the listings collection *)
(* ===================================================================== *)

(** The part of Cloud Firestore the program uses: one collection,
    [artifacts/<appId>/public/data/services], whose documents are those
    [handleAddService] writes (fields [name], [description], [userId],
    [timestamp]); [addDoc], [deleteDoc], and the documents of a query
    snapshot. *)
Module Firestore.

(** The value [getFirestore] returns. *)
Inductive handle : Type := Db.

Definition DocId := jsstring.

Definition DocId_eqb (a b : DocId) : bool :=
  if list_eq_dec N.eq_dec a b then true else false.

(** A Firestore [Timestamp], seen through the only method the program
    calls on it: [toDate ts] is the time value, in milliseconds since
    the epoch, of the [Date] that [ts.toDate()] returns.  Firestore
    stores times from year 1 to year 9999, so the value may be negative. *)
Record Timestamp : Type := { toDate : Z }.

(** [doc.data()] of a document of a snapshot.  [timestamp] is [null]
    while the write that set it to [serverTimestamp()] is pending. *)
Record DocumentData : Type := {
  name : jsstring;
  description : jsstring;
  userId : option jsstring;
  timestamp : option Timestamp
}.

Record QueryDocumentSnapshot : Type := {
  id : DocId;
  data : DocumentData
}.

(** The object literal passed to [addDoc]; [serverTimestamp()] is a
    sentinel the backend replaces by its own time. *)
Inductive FieldValue : Type := serverTimestamp.

Record NewDocument : Type := {
  new_name : jsstring;
  new_description : jsstring;
  new_userId : option jsstring;
  new_timestamp : FieldValue
}.

(** The write requests the program issues. *)
Inductive request : Type :=
| AddDoc (d : NewDocument)
| DeleteDoc (i : DocId).

(** How the backend settles them: an accepted [addDoc] is given a
    document id and the server's time. *)
Inductive add_settlement : Type :=
| AddFulfilled (i : DocId) (now : Timestamp)
| AddRejected.

Inductive delete_settlement : Type :=
| DeleteFulfilled
| DeleteRejected.

(** A document at rest: the timestamp is the server's. *)
Record StoredDocument : Type := {
  doc_id : DocId;
  doc_name : jsstring;
  doc_description : jsstring;
  doc_userId : option jsstring;
  doc_timestamp : Timestamp
}.

Definition collection := list StoredDocument.

Definition store (i : DocId) (d : NewDocument) (now : Timestamp)
  : StoredDocument :=
  {| doc_id := i;
     doc_name := new_name d;
     doc_description := new_description d;
     doc_userId := new_userId d;
     doc_timestamp := match new_timestamp d with
                      | serverTimestamp => now
                      end |}.

Definition remove (i : DocId) (c : collection) : collection :=
  filter (fun d => negb (DocId_eqb (doc_id d) i)) c.

(** A document as a snapshot acknowledged by the server shows it. *)
Definition acknowledged (d : StoredDocument) : QueryDocumentSnapshot :=
  {| id := doc_id d;
     data := {| name := doc_name d;
                description := doc_description d;
                userId := doc_userId d;
                timestamp := Some (doc_timestamp d) |} |}.

End Firestore.


(* ===================================================================== *)
(** ** [AngiCloneAppContent] (src/app.js, lines 130-203) *)
(* ===================================================================== *)

Module Content.
Import Firestore.

(** An element of [services]: [{ id: doc.id, ...doc.data() }]. *)
Record Service : Type := {
  service_id : DocId;
  service_name : jsstring;
  service_description : jsstring;
  service_userId : option jsstring;
  service_timestamp : option Timestamp
}.

(** The [useState] cells of the component (lines 132-136). *)
Record State : Type := {
  services : list Service;
  newService : jsstring;
  newDescription : jsstring;
  submitLoading : bool;
  submitError : option jsstring
}.

Definition initialState : State :=
  {| services := [];
     newService := [];
     newDescription := [];
     submitLoading := false;
     submitError := None |}.

(** What a handler of the component acts on: the component's state, the
    collection held by the backend, and the write requests sent so far,
    oldest first. *)
Record World : Type := {
  state : State;
  backend : collection;
  requests : list request
}.

Definition initialWorld : World :=
  {| state := initialState; backend := []; requests := [] |}.

Definition with_state (f : State -> State) (w : World) : World :=
  {| state := f (state w); backend := backend w; requests := requests w |}.

Definition setServices (v : list Service) : M World unit :=
  modify (with_state (fun s =>
    {| services := v; newService := newService s;
       newDescription := newDescription s;
       submitLoading := submitLoading s; submitError := submitError s |})).

Definition setNewService (v : jsstring) : M World unit :=
  modify (with_state (fun s =>
    {| services := services s; newService := v;
       newDescription := newDescription s;
       submitLoading := submitLoading s; submitError := submitError s |})).

Definition setNewDescription (v : jsstring) : M World unit :=
  modify (with_state (fun s =>
    {| services := services s; newService := newService s;
       newDescription := v;
       submitLoading := submitLoading s; submitError := submitError s |})).

Definition setSubmitLoading (v : bool) : M World unit :=
  modify (with_state (fun s =>
    {| services := services s; newService := newService s;
       newDescription := newDescription s;
       submitLoading := v; submitError := submitError s |})).

Definition setSubmitError (v : option jsstring) : M World unit :=
  modify (with_state (fun s =>
    {| services := services s; newService := newService s;
       newDescription := newDescription s;
       submitLoading := submitLoading s; submitError := v |})).

(** [await addDoc(collectionRef, d)]: the request is sent; when the
    backend accepts it the collection gains the document, otherwise the
    awaited promise rejects. *)
Definition addDoc (d : NewDocument) (settlement : add_settlement)
  : M World DocId :=
  fun w =>
    let sent := {| state := state w; backend := backend w;
                   requests := requests w ++ [AddDoc d] |} in
    match settlement with
    | AddFulfilled i now =>
        (Normal i, {| state := state sent;
                      backend := backend sent ++ [store i d now];
                      requests := requests sent |})
    | AddRejected => (Thrown, sent)
    end.

(** [await deleteDoc(doc(db, path, serviceId))]. *)
Definition deleteDoc (i : DocId) (settlement : delete_settlement)
  : M World unit :=
  fun w =>
    let sent := {| state := state w; backend := backend w;
                   requests := requests w ++ [DeleteDoc i] |} in
    match settlement with
    | DeleteFulfilled =>
        (Normal tt, {| state := state sent;
                       backend := remove i (backend sent);
                       requests := requests sent |})
    | DeleteRejected => (Thrown, sent)
    end.

(** The effect of lines 138-162 subscribes only when both are set:
    [if (!db || !userId) return;]. *)
Definition subscribes (db : option handle) (userId : option jsstring) : bool :=
  negb (negb (truthy_object db) || negb (truthy_nullable_string userId)).

(** [doc => ({ id: doc.id, ...doc.data() })] (lines 149-152); the data
    of these documents has no [id] field, so [doc.id] is the [id]. *)
Definition toService (doc : QueryDocumentSnapshot) : Service :=
  {| service_id := id doc;
     service_name := name (data doc);
     service_description := description (data doc);
     service_userId := userId (data doc);
     service_timestamp := timestamp (data doc) |}.

(** [x.timestamp?.toDate() || 0]: a [Date] is an object, hence truthy,
    and the subtraction below takes its time value. *)
Definition dateOrZero (t : option Timestamp) : Z :=
  match t with
  | Some ts => toDate ts
  | None => 0
  end.

(** The comparator of line 154,
    [(a, b) => (b.timestamp?.toDate() || 0) - (a.timestamp?.toDate() || 0)]. *)
Definition compareFn (a b : Service) : Z :=
  (dateOrZero (service_timestamp b) - dateOrZero (service_timestamp a))%Z.

(** The snapshot callback (lines 148-155). *)
Definition onSnapshot_next (docs : list QueryDocumentSnapshot)
  : M World unit :=
  let servicesData := map toService docs in
  setServices (JS.sort compareFn servicesData).

(** The error callback (lines 156-159). *)
Definition onSnapshot_error : M World unit :=
  setSubmitError (Some (lit "Failed to load services.")).

(** [handleAddService] (lines 164-190).  [db] and [userId] come from the
    context; [newService] and [newDescription] are the values of the
    render the handler belongs to, that is the state at the click. *)
Definition handleAddService (db : option handle) (userId : option jsstring)
           (settlement : add_settlement) : M World unit :=
  w <- get ;;
  let newService := newService (state w) in
  let newDescription := newDescription (state w) in
  if negb (truthy_object db)
     || negb (truthy_nullable_string userId)
     || negb (truthy_string (trim newService))
  then
    setSubmitError (Some (lit "Service name cannot be empty."))
  else
    setSubmitLoading true ;;
    setSubmitError None ;;
    try_catch_finally
      (_ <- addDoc {| new_name := trim newService;
                      new_description := trim newDescription;
                      new_userId := userId;
                      new_timestamp := serverTimestamp |} settlement ;;
       setNewService [] ;;
       setNewDescription [])
      (setSubmitError (Some (lit "Failed to add service. Please try again.")))
      (setSubmitLoading false).

(** [handleDeleteService] (lines 192-203). *)
Definition handleDeleteService (db : option handle) (userId : option jsstring)
           (serviceId : DocId) (settlement : delete_settlement)
  : M World unit :=
  if negb (truthy_object db) || negb (truthy_nullable_string userId)
  then ret tt
  else
    try_catch
      (deleteDoc serviceId settlement)
      (setSubmitError
         (Some (lit "Failed to delete service. Please try again."))).

(** The two [onChange] handlers of the form. *)
Definition onChange_name (value : jsstring) : M World unit :=
  setNewService value.

Definition onChange_description (value : jsstring) : M World unit :=
  setNewDescription value.

End Content.


(* ===================================================================== *)
(** ** [FirebaseProvider] (src/app.js, lines 17-119) *)
(* ===================================================================== *)

Module Provider.

(** The values [initializeApp] and [getAuth] return. *)
Inductive FirebaseApp : Type := App.
Inductive Auth : Type := AuthHandle.

(** A Firebase user, of which the program reads [uid]. *)
Record User : Type := { uid : jsstring }.

(** The [useState] cells of the component (lines 18-23). *)
Record State : Type := {
  app : option FirebaseApp;
  db : option Firestore.handle;
  auth : option Auth;
  userId : option jsstring;
  loading : bool;
  error : option jsstring
}.

Definition initialState : State :=
  {| app := None; db := None; auth := None;
     userId := None; loading := true; error := None |}.

(** The calls made to the authentication service. *)
Inductive sdk_call : Type :=
| SignInWithCustomToken (token : jsstring)
| SignInAnonymously
| SignOut.

(** How the service settles an awaited sign-in and an awaited sign-out. *)
Inductive signin_settlement : Type :=
| SignedIn (u : User)
| SignInRejected.

Inductive signout_settlement : Type :=
| SignedOut
| SignOutRejected.

(** Where the synchronous part of the mount effect may throw. *)
Inductive setup_outcome : Type :=
| SetupOk
| InitializeAppThrows      (* [JSON.parse] or [initializeApp], lines 29-33 *)
| GetFirestoreThrows       (* line 37 *)
| GetAuthThrows.           (* line 39 *)

(** The callback given to [onAuthStateChanged] is a closure: its code is
    [authStateChanged] below, its environment the bindings of the render
    that ran the effect ([loading]) and of the effect ([initialAuthToken],
    through [signInUser]). *)
Record Closure : Type := {
  closure_loading : bool;
  closure_initialAuthToken : option jsstring
}.

(** What a handler of the provider acts on: the component's state; the
    authentication service's current user, its registered listener and
    the notifications it has queued for it, oldest first; the calls made
    to the service so far, oldest first. *)
Record World : Type := {
  state : State;
  currentUser : option User;
  listener : option Closure;
  pending : list (option User);
  calls : list sdk_call
}.

Definition initialWorld : World :=
  {| state := initialState; currentUser := None; listener := None;
     pending := []; calls := [] |}.

Definition with_state (f : State -> State) (w : World) : World :=
  {| state := f (state w); currentUser := currentUser w;
     listener := listener w; pending := pending w; calls := calls w |}.

Definition setApp (v : option FirebaseApp) : M World unit :=
  modify (with_state (fun s =>
    {| app := v; db := db s; auth := auth s;
       userId := userId s; loading := loading s; error := error s |})).

Definition setDb (v : option Firestore.handle) : M World unit :=
  modify (with_state (fun s =>
    {| app := app s; db := v; auth := auth s;
       userId := userId s; loading := loading s; error := error s |})).

Definition setAuth (v : option Auth) : M World unit :=
  modify (with_state (fun s =>
    {| app := app s; db := db s; auth := v;
       userId := userId s; loading := loading s; error := error s |})).

Definition setUserId (v : option jsstring) : M World unit :=
  modify (with_state (fun s =>
    {| app := app s; db := db s; auth := auth s;
       userId := v; loading := loading s; error := error s |})).

Definition setLoading (v : bool) : M World unit :=
  modify (with_state (fun s =>
    {| app := app s; db := db s; auth := auth s;
       userId := userId s; loading := v; error := error s |})).

Definition setError (v : option jsstring) : M World unit :=
  modify (with_state (fun s =>
    {| app := app s; db := db s; auth := auth s;
       userId := userId s; loading := loading s; error := v |})).

(** *** The authentication service *)

Definition record_call (c : sdk_call) : M World unit :=
  modify (fun w =>
    {| state := state w; currentUser := currentUser w;
       listener := listener w; pending := pending w;
       calls := calls w ++ [c] |}).

(** A change of the signed-in user is queued for the listener, if any. *)
Definition become (u : option User) : M World unit :=
  modify (fun w =>
    {| state := state w; currentUser := u;
       listener := listener w;
       pending := match listener w with
                  | Some _ => pending w ++ [u]
                  | None => pending w
                  end;
       calls := calls w |}).

Definition signIn (c : sdk_call) (settlement : signin_settlement)
  : M World unit :=
  record_call c ;;
  match settlement with
  | SignedIn u => become (Some u)
  | SignInRejected => throw
  end.

(** [await signInAnonymously(auth)] *)
Definition signInAnonymously (settlement : signin_settlement)
  : M World unit :=
  signIn SignInAnonymously settlement.

(** [await signInWithCustomToken(auth, token)] *)
Definition signInWithCustomToken (token : jsstring)
           (settlement : signin_settlement) : M World unit :=
  signIn (SignInWithCustomToken token) settlement.

(** [await signOut(auth)] *)
Definition signOut (settlement : signout_settlement) : M World unit :=
  record_call SignOut ;;
  match settlement with
  | SignedOut => become None
  | SignOutRejected => throw
  end.

(** [onAuthStateChanged(auth, callback)]: the listener is registered and
    is told the current user a first time. *)
Definition onAuthStateChanged (callback : Closure) : M World unit :=
  modify (fun w =>
    {| state := state w; currentUser := currentUser w;
       listener := Some callback;
       pending := pending w ++ [currentUser w];
       calls := calls w |}).

(** *** The component *)

(** [signInUser] (lines 43-56). *)
Definition signInUser (initialAuthToken : option jsstring)
           (settlement : signin_settlement) : M World unit :=
  try_catch_finally
    (match initialAuthToken with
     | Some token =>
         if truthy_string token
         then signInWithCustomToken token settlement
         else signInAnonymously settlement
     | None => signInAnonymously settlement
     end)
    (setError (Some (lit "Failed to authenticate with Firebase.")))
    (setLoading false).

(** The callback of lines 59-68.  [loading] is the closure's: line 65
    reads the binding of the render in which the effect ran.
    [settlement] settles the sign-in of line 65 when it is made. *)
Definition authStateChanged (closure : Closure) (user : option User)
           (settlement : signin_settlement) : M World unit :=
  match user with
  | Some u => setUserId (Some (uid u))
  | None =>
      setUserId None ;;
      if negb (closure_loading closure)
      then signInUser (closure_initialAuthToken closure) settlement
      else ret tt
  end ;;
  setLoading false.

(** The event loop hands the oldest queued notification to the listener. *)
Definition deliver (settlement : signin_settlement) : M World unit :=
  w <- get ;;
  match pending w, listener w with
  | user :: rest, Some closure =>
      modify (fun w =>
        {| state := state w; currentUser := currentUser w;
           listener := listener w; pending := rest; calls := calls w |}) ;;
      authStateChanged closure user settlement
  | _, _ => ret tt
  end.

(** The body of the effect of lines 25-81, for the render [r] whose
    bindings it closes over. *)
Definition effect (r : State) (initialAuthToken : option jsstring)
           (setup : setup_outcome) (settlement : signin_settlement)
  : M World unit :=
  try_catch
    (match setup with InitializeAppThrows => throw | _ => ret tt end ;;
     setApp (Some App) ;;
     match setup with GetFirestoreThrows => throw | _ => ret tt end ;;
     setDb (Some Firestore.Db) ;;
     match setup with GetAuthThrows => throw | _ => ret tt end ;;
     setAuth (Some AuthHandle) ;;
     onAuthStateChanged
       {| closure_loading := loading r;
          closure_initialAuthToken := initialAuthToken |} ;;
     w <- get ;;
     if negb (truthy_object (currentUser w))
     then signInUser initialAuthToken settlement
     else ret tt)
    (setError
       (Some (lit "Failed to initialize Firebase. Please check the configuration.")) ;;
     setLoading false).

(** The dependency array of the effect is empty (line 81): React runs it
    once, after the first render, in which every [useState] returned its
    initial value. *)
Definition mount : option jsstring -> setup_outcome -> signin_settlement
                   -> M World unit :=
  effect initialState.

(** [handleSignOut] (lines 83-95); [auth] is the state at the click. *)
Definition handleSignOut (out : signout_settlement)
           (back : signin_settlement) : M World unit :=
  w <- get ;;
  if truthy_object (auth (state w)) then
    try_catch
      (signOut out ;;
       setUserId None ;;
       signInAnonymously back)
      (setError (Some (lit "Failed to sign out.")))
  else ret tt.

(** The user is signed out from outside the component (another tab, a
    revoked session): the service loses its user and tells the listener. *)
Definition signedOutElsewhere : M World unit := become None.

(** What can happen to the provider once it is mounted. *)
Inductive event : Type :=
| Notification (settlement : signin_settlement)
| SignOutClick (out : signout_settlement) (back : signin_settlement)
| SignedOutElsewhere.

Definition react (e : event) : M World unit :=
  match e with
  | Notification settlement => deliver settlement
  | SignOutClick out back => handleSignOut out back
  | SignedOutElsewhere => signedOutElsewhere
  end.

Fixpoint run (es : list event) (w : World) : World :=
  match es with
  | [] => w
  | e :: es' => run es' (exec (react e) w)
  end.

(** What the component renders (lines 97-118). *)
Record ContextValue : Type := {
  value_app : option FirebaseApp;
  value_db : option Firestore.handle;
  value_auth : option Auth;
  value_userId : option jsstring
}.

Inductive Rendered : Type :=
| LoadingIndicator                     (* lines 98-103 *)
| ErrorAlert (message : jsstring)      (* lines 107-111 *)
| Children (value : ContextValue).     (* lines 114-118: the form and list *)

Definition render (s : State) : Rendered :=
  if loading s then LoadingIndicator
  else
    let children :=
      Children {| value_app := app s; value_db := db s;
                  value_auth := auth s; value_userId := userId s |} in
    match error s with
    | Some message =>
        if truthy_string message then ErrorAlert message else children
    | None => children
    end.

(** The message of line 52. *)
Definition authentication_failed : jsstring :=
  lit "Failed to authenticate with Firebase.".

(** The state in which line 106 takes the error branch. *)
Definition error_shown (w : World) : Prop :=
  loading (state w) = false
  /\ truthy_nullable_string (error (state w)) = true.

(** The application body is on screen. *)
Definition renders_children (s : State) : Prop :=
  exists value, render s = Children value.

(** The blocking error notice is on screen. *)
Definition renders_error_alert (s : State) : Prop :=
  exists message, render s = ErrorAlert message.

End Provider.


(* ===================================================================== *)
(** ** Sequences of user operations, and what the listing should show *)
(* ===================================================================== *)

Module Listing.
Import Firestore Content.

(** A user operation on the listings: filling in the form and pressing
    "Add Service", or pressing the delete button of a row.  Each carries
    the way the backend settles the write, should one be sent. *)
Inductive operation : Type :=
| Create (name description : jsstring) (settlement : add_settlement)
| Delete (serviceId : DocId) (settlement : delete_settlement).

Definition perform (db : option handle) (userId : option jsstring)
           (o : operation) : M World unit :=
  match o with
  | Create n d settlement =>
      onChange_name n ;;
      onChange_description d ;;
      handleAddService db userId settlement
  | Delete i settlement =>
      handleDeleteService db userId i settlement
  end.

Fixpoint perform_all (db : option handle) (userId : option jsstring)
         (ops : list operation) : M World unit :=
  match ops with
  | [] => ret tt
  | o :: ops' => perform db userId o ;; perform_all db userId ops'
  end.







(** The published list after a snapshot. *)
Definition published (docs : list QueryDocumentSnapshot) (w : World)
  : list Service :=
  services (state (exec (onSnapshot_next docs) w)).





End Listing.


(* ===================================================================== *)
(** ** What [AngiCloneAppContent] renders (src/app.js, lines 205-325) *)
(* ===================================================================== *)

Module Screen.
Import Firestore Content.

(** The child of the "Add Service" button (line 263). *)
Inductive ButtonLabel : Type :=
| Spinner
| AddServiceText.

(** A [ListItem] of lines 280-316.  The date of line 306 is kept as the
    timestamp it is printed from. *)
Record Row : Type := {
  row_key : DocId;                  (* [key={service.id}] *)
  row_primary : jsstring;           (* [{service.name}] *)
  row_secondary : jsstring;         (* line 302 *)
  row_addedBy : option jsstring;    (* [Added by: {service.userId}] *)
  row_addedOn : option Timestamp;   (* line 306 *)
  row_onDelete : DocId              (* the argument of line 312 *)
}.

(** [service.description || 'No description provided.'] *)
Definition descriptionOrDefault (description : jsstring) : jsstring :=
  if truthy_string description then description
  else lit "No description provided.".

Definition toRow (service : Service) : Row :=
  {| row_key := service_id service;
     row_primary := service_name service;
     row_secondary := descriptionOrDefault (service_description service);
     row_addedBy := service_userId service;
     row_addedOn := service_timestamp service;
     row_onDelete := service_id service |}.

(** The "Available Services" panel (lines 273-319). *)
Inductive Available : Type :=
| NoServicesYet
| ServiceList (rows : list Row).

Record Rendered : Type := {
  toolbar_userId : option jsstring;   (* lines 212-216 *)
  name_value : jsstring;              (* line 233 *)
  description_value : jsstring;       (* line 243 *)
  add_disabled : bool;                (* line 251 *)
  add_label : ButtonLabel;            (* line 263 *)
  alert : option jsstring;            (* line 265 *)
  available : Available
}.

Definition render (userId : option jsstring) (s : State) : Rendered :=
  {| toolbar_userId :=
       if truthy_nullable_string userId then userId else None;
     name_value := newService s;
     description_value := newDescription s;
     add_disabled := submitLoading s;
     add_label := if submitLoading s then Spinner else AddServiceText;
     alert :=
       if truthy_nullable_string (submitError s) then submitError s
       else None;
     available :=
       match services s with
       | [] => NoServicesYet
       | _ :: _ => ServiceList (map toRow (services s))
       end |}.

(** The rows on screen, none when the notice of lines 274-276 is shown. *)
Definition rows (r : Rendered) : list Row :=
  match available r with
  | NoServicesYet => []
  | ServiceList l => l
  end.

End Screen.


(* ===================================================================== *)
(** ** [handleAddService] around its [await] *)
(* ===================================================================== *)

(** [handleAddService] is an async function: it runs up to the [await]
    of line 176 when the button is pressed, and from there when the
    promise of [addDoc] settles; other events may be handled in
    between. *)
Module InFlight.
Import Firestore Content.

(** The request leaves for the backend. *)
Definition send (r : request) : M World unit :=
  modify (fun w =>
    {| state := state w; backend := backend w;
       requests := requests w ++ [r] |}).

(** The backend settles the [addDoc] of [d]. *)
Definition settled (d : NewDocument) (settlement : add_settlement)
  : M World DocId :=
  fun w =>
    match settlement with
    | AddFulfilled i now =>
        (Normal i, {| state := state w;
                      backend := backend w ++ [store i d now];
                      requests := requests w |})
    | AddRejected => (Thrown, w)
    end.

(** Lines 164-176, up to the [await]: the document whose write is
    awaited, if the guard let it through. *)
Definition handleAddService_called (db : option handle)
           (userId : option jsstring) : M World (option NewDocument) :=
  w <- get ;;
  let newService := newService (state w) in
  let newDescription := newDescription (state w) in
  if negb (truthy_object db)
     || negb (truthy_nullable_string userId)
     || negb (truthy_string (trim newService))
  then
    setSubmitError (Some (lit "Service name cannot be empty.")) ;;
    ret None
  else
    setSubmitLoading true ;;
    setSubmitError None ;;
    let d := {| new_name := trim newService;
                new_description := trim newDescription;
                new_userId := userId;
                new_timestamp := serverTimestamp |} in
    send (AddDoc d) ;;
    ret (Some d).

(** Lines 176-189, from the [await] on. *)
Definition handleAddService_resumed (d : NewDocument)
           (settlement : add_settlement) : M World unit :=
  try_catch_finally
    (_ <- settled d settlement ;;
     setNewService [] ;;
     setNewDescription [])
    (setSubmitError (Some (lit "Failed to add service. Please try again.")))
    (setSubmitLoading false).


End InFlight.


(* ===================================================================== *)
(** ** What can happen to [AngiCloneAppContent] *)
(* ===================================================================== *)

Module Happenings.
Import Firestore Content.

Inductive happening : Type :=
| TypeName (value : jsstring)
| TypeDescription (value : jsstring)
| ClickAdd (settlement : add_settlement)
| ClickDelete (serviceId : DocId) (settlement : delete_settlement)
| SnapshotArrives (docs : list QueryDocumentSnapshot)
| SnapshotFails.

Definition react (db : option handle) (userId : option jsstring)
           (h : happening) : M World unit :=
  match h with
  | TypeName value => onChange_name value
  | TypeDescription value => onChange_description value
  | ClickAdd settlement => handleAddService db userId settlement
  | ClickDelete serviceId settlement =>
      handleDeleteService db userId serviceId settlement
  | SnapshotArrives docs => onSnapshot_next docs
  | SnapshotFails => onSnapshot_error
  end.

Fixpoint run (db : option handle) (userId : option jsstring)
         (hs : list happening) (w : World) : World :=
  match hs with
  | [] => w
  | h :: hs' => run db userId hs' (exec (react db userId h) w)
  end.

Definition is_snapshot (h : happening) : bool :=
  match h with SnapshotArrives _ => true | _ => false end.

Definition is_add (h : happening) : bool :=
  match h with ClickAdd _ => true | _ => false end.

(** The documents of the last snapshot of the sequence, if any. *)
Fixpoint last_snapshot (hs : list happening)
  : option (list QueryDocumentSnapshot) :=
  match hs with
  | [] => None
  | h :: hs' =>
      match last_snapshot hs' with
      | Some docs => Some docs
      | None =>
          match h with
          | SnapshotArrives docs => Some docs
          | _ => None
          end
      end
  end.

(** The time the comparator of line 154 reads in a record. *)
Definition time_of (s : Service) : Z := dateOrZero (service_timestamp s).

(** A string with no white space at its start. *)
Definition starts_clean (s : jsstring) : Prop :=
  match s with
  | [] => True
  | c :: _ => isWhiteSpace c = false
  end.

(** What [handleAddService] stores for the session [userId]: a name that
    is not empty and a name and a description with no white space at
    either end, written by [userId]. *)
Definition well_formed (userId : option jsstring) (d : StoredDocument)
  : Prop :=
  doc_name d <> []
  /\ starts_clean (doc_name d) /\ starts_clean (rev (doc_name d))
  /\ starts_clean (doc_description d)
  /\ starts_clean (rev (doc_description d))
  /\ doc_userId d = userId.

End Happenings.


(* ===================================================================== *)
(** ** The provider's effect clean-up, and [App] *)
(* ===================================================================== *)

Module Lifecycle.
Import Provider.

(** [unsubscribe()], the function [onAuthStateChanged] returned. *)
Definition unsubscribe : M World unit :=
  modify (fun w =>
    {| state := state w; currentUser := currentUser w;
       listener := None; pending := pending w; calls := calls w |}).

(** What React runs at unmount: the function the effect returned (line
    75); the effect returns none when its [catch] branch ran. *)
Definition cleanup (setup : setup_outcome) : M World unit :=
  match setup with
  | SetupOk => unsubscribe
  | _ => ret tt
  end.

(** The world at a load in which the service already holds the user [u]
    of an earlier visit when the effect runs. *)
Definition returningWorld (u : User) : World :=
  {| state := initialState; currentUser := Some u; listener := None;
     pending := []; calls := [] |}.


(** The service's side of things: nothing here is done by the
    component. *)
Definition from_service (e : event) : bool :=
  match e with
  | Notification _ => true
  | SignedOutElsewhere => true
  | SignOutClick _ _ => false
  end.

(** What the listener will have been told last once every queued
    notification is delivered: the identity [userId] is heading for. *)
Definition settling_userId (w : World) : option jsstring :=
  match rev (pending w) with
  | user :: _ => option_map uid user
  | [] => userId (state w)
  end.

(** The component and the service agree on who is signed in, up to the
    notifications still queued. *)
Definition in_step (w : World) : Prop :=
  listener w <> None
  /\ settling_userId w = option_map uid (currentUser w).

End Lifecycle.

(** [App] (lines 122-128): [AngiCloneAppContent] is a child of the
    provider and reads [db] and [userId] from its context (line 131). *)
Module App.
Import Firestore.

(** The context [AngiCloneAppContent] is rendered with, if it is. *)
Definition content_context (p : Provider.State)
  : option (option handle * option jsstring) :=
  match Provider.render p with
  | Provider.Children value =>
      Some (Provider.value_db value, Provider.value_userId value)
  | _ => None
  end.

(** A press on "Add Service", a press on a delete button: there is
    nothing to press when the form and list are not on screen. *)
Definition clickAdd (p : Provider.State) (settlement : add_settlement)
  : M Content.World unit :=
  match content_context p with
  | Some (db, userId) => Content.handleAddService db userId settlement
  | None => ret tt
  end.

Definition clickDelete (p : Provider.State) (serviceId : DocId)
           (settlement : delete_settlement) : M Content.World unit :=
  match content_context p with
  | Some (db, userId) =>
      Content.handleDeleteService db userId serviceId settlement
  | None => ret tt
  end.

(** Whether the listings subscription is open (lines 138-162). *)
Definition listening (p : Provider.State) : bool :=
  match content_context p with
  | Some (db, userId) => Content.subscribes db userId
  | None => false
  end.

End App.


(* ===================================================================== *)
(** * Properties *)
(* ===================================================================== *)

Unset Implicit Arguments.

(** ** Properties kept by a handler *)

Section Preservation.
Context {W : Type} (P : W -> Prop).

Lemma preserves_ret {A} (a : A) : preserves P (ret (W := W) a).
Proof. intros w H; exact H. Qed.

Lemma preserves_throw {A} : preserves P (throw (W := W) (A := A)).
Proof. intros w H; exact H. Qed.

Lemma preserves_get : preserves P (get (W := W)).
Proof. intros w H; exact H. Qed.

Lemma preserves_modify (f : W -> W) :
  (forall w, P w -> P (f w)) -> preserves P (modify f).
Proof. intros Hf w H; exact (Hf w H). Qed.

Lemma preserves_bind {A B} (m : M W A) (k : A -> M W B) :
  preserves P m -> (forall a, preserves P (k a)) -> preserves P (bind m k).
Proof.
  intros Hm Hk w H; unfold exec, bind.
  specialize (Hm w H); unfold exec in Hm.
  destruct (m w) as [[a|] w1]; simpl in *; [|exact Hm].
  exact (Hk a w1 Hm).
Qed.

Lemma preserves_try_catch {A} (body handler : M W A) :
  preserves P body -> preserves P handler ->
  preserves P (try_catch body handler).
Proof.
  intros Hb Hh w H; unfold exec, try_catch.
  specialize (Hb w H); unfold exec in Hb.
  destruct (body w) as [[a|] w1]; simpl in *; [exact Hb|].
  exact (Hh w1 Hb).
Qed.

Lemma preserves_try_finally {A} (body : M W A) (final : M W unit) :
  preserves P body -> preserves P final ->
  preserves P (try_finally body final).
Proof.
  intros Hb Hf w H; unfold exec, try_finally.
  specialize (Hb w H); unfold exec in Hb.
  destruct (body w) as [c w1]; simpl in Hb.
  specialize (Hf w1 Hb); unfold exec in Hf.
  destruct (final w1) as [[u|] w2]; exact Hf.
Qed.

Lemma preserves_try_catch_finally {A}
      (body handler : M W A) (final : M W unit) :
  preserves P body -> preserves P handler -> preserves P final ->
  preserves P (try_catch_finally body handler final).
Proof.
  intros Hb Hh Hf; apply preserves_try_finally;
    [apply preserves_try_catch|]; assumption.
Qed.

End Preservation.

(** ** [trim] *)

Lemma trimStart_nil_iff (s : jsstring) :
  trimStart s = [] <-> forallb isWhiteSpace s = true.
Proof.
  induction s as [|c s IH]; simpl.
  - tauto.
  - destruct (isWhiteSpace c); simpl.
    + exact IH.
    + split; discriminate.
Qed.

Lemma trimStart_head (s : jsstring) c s' :
  trimStart s = c :: s' -> isWhiteSpace c = false.
Proof.
  induction s as [|a s IH]; simpl; [discriminate|].
  destruct (isWhiteSpace a) eqn:Ha; [exact IH|].
  intros E; injection E as -> _; exact Ha.
Qed.

Lemma forallb_rev {A} (p : A -> bool) (l : list A) :
  forallb p (rev l) = forallb p l.
Proof.
  induction l as [|a l IH]; simpl; [reflexivity|].
  rewrite forallb_app, IH; simpl.
  rewrite andb_true_r; apply andb_comm.
Qed.

(** A string trims to the empty string exactly when it is made of white
    space only (the empty string included). *)
Lemma trim_nil_iff (s : jsstring) :
  trim s = [] <-> forallb isWhiteSpace s = true.
Proof.
  unfold trim, trimEnd; split.
  - intros H.
    apply (f_equal (@rev _)) in H; rewrite rev_involutive in H; simpl in H.
    apply trimStart_nil_iff in H; rewrite forallb_rev in H.
    destruct (trimStart s) as [|c s'] eqn:E.
    + apply trimStart_nil_iff; exact E.
    + apply trimStart_head in E; simpl in H; rewrite E in H; discriminate.
  - intros H; apply trimStart_nil_iff in H; rewrite H; reflexivity.
Qed.

Lemma truthy_trim_false (s : jsstring) :
  forallb isWhiteSpace s = true -> truthy_string (trim s) = false.
Proof.
  intros H; apply trim_nil_iff in H; rewrite H; reflexivity.
Qed.

(** ** [sort] *)

Section SortFacts.
Variable A : Type.
Variable compareFn : A -> A -> Z.

Lemma insert_Permutation (x : A) (l : list A) :
  Permutation (insert compareFn x l) (x :: l).
Proof.
  induction l as [|y l IH]; simpl; [reflexivity|].
  destruct (compareFn x y <=? 0)%Z; [reflexivity|].
  rewrite IH; apply perm_swap.
Qed.

Lemma sort_Permutation (l : list A) : Permutation (sort compareFn l) l.
Proof.
  induction l as [|x l IH]; simpl; [reflexivity|].
  rewrite insert_Permutation, IH; reflexivity.
Qed.

(** The comparator of the program is a difference of keys, larger keys
    first. *)
Variable key : A -> Z.
Hypothesis compareFn_key : forall a b, compareFn a b = (key b - key a)%Z.

Lemma insert_sorted (x : A) (l : list A) :
  StronglySorted (key_ge key) l -> StronglySorted (key_ge key) (insert compareFn x l).
Proof.
  induction 1 as [|y l Hs IH Hy]; simpl.
  - repeat constructor.
  - rewrite compareFn_key.
    destruct (Z.leb_spec (key y - key x) 0) as [Hle|Hgt].
    + constructor; [constructor; assumption|].
      constructor; [unfold key_ge; lia|].
      rewrite Forall_forall in Hy |- *; intros z Hz.
      specialize (Hy z Hz); unfold key_ge in *; lia.
    + constructor; [exact IH|].
      rewrite Forall_forall in Hy |- *; intros z Hz.
      apply (Permutation_in _ (insert_Permutation x l)) in Hz.
      destruct Hz as [<-|Hz]; [unfold key_ge; lia | exact (Hy z Hz)].
Qed.

Lemma sort_sorted (l : list A) :
  StronglySorted (key_ge key) (sort compareFn l).
Proof.
  induction l as [|x l IH]; simpl; [constructor|].
  apply insert_sorted; exact IH.
Qed.

(** Stability: records with the same key keep their relative order. *)
Lemma insert_filter_key (k : Z) (x : A) (l : list A) :
  StronglySorted (key_ge key) l ->
  filter (fun a => key a =? k)%Z (insert compareFn x l)
  = filter (fun a => key a =? k)%Z (x :: l).
Proof.
  induction 1 as [|y l Hs IH Hy]; [reflexivity|].
  cbn [insert]; rewrite compareFn_key.
  destruct (Z.leb_spec (key y - key x) 0) as [Hle|Hgt]; [reflexivity|].
  cbn [filter] in *; rewrite IH.
  destruct (Z.eqb_spec (key y) k), (Z.eqb_spec (key x) k);
    try reflexivity; lia.
Qed.

Lemma sort_stable (k : Z) (l : list A) :
  filter (fun a => key a =? k)%Z (sort compareFn l)
  = filter (fun a => key a =? k)%Z l.
Proof.
  induction l as [|x l IH]; [reflexivity|].
  cbn [sort]; rewrite insert_filter_key by apply sort_sorted.
  cbn [filter]; rewrite IH; reflexivity.
Qed.

(** These properties leave no choice: a list in descending order of key
    that keeps, for every key, the records of that key in their order in
    [l] is [sort compareFn l], whatever algorithm produced it. *)
Lemma filter_key_head (k : Z) (x : A) (l : list A) :
  key x = k ->
  filter (fun a => key a =? k)%Z (x :: l)
  = x :: filter (fun a => key a =? k)%Z l.
Proof. intros E; simpl; rewrite (proj2 (Z.eqb_eq _ _) E); reflexivity. Qed.

Lemma filter_key_skip (k : Z) (x : A) (l : list A) :
  key x <> k ->
  filter (fun a => key a =? k)%Z (x :: l)
  = filter (fun a => key a =? k)%Z l.
Proof. intros E; simpl; rewrite (proj2 (Z.eqb_neq _ _) E); reflexivity. Qed.

Lemma sorted_head_is_largest (x y : A) (l : list A) :
  StronglySorted (key_ge key) (x :: l) -> In y l -> (key y <= key x)%Z.
Proof.
  intros H Hy; apply StronglySorted_inv in H; destruct H as [_ H].
  rewrite Forall_forall in H; exact (H y Hy).
Qed.

Lemma in_filter_key_of_head (x y : A) (l l' : list A) :
  key x <> key y ->
  filter (fun a => key a =? key y)%Z (x :: l)
  = filter (fun a => key a =? key y)%Z (y :: l') ->
  In y l.
Proof.
  intros Hne E.
  rewrite filter_key_skip, filter_key_head in E by (exact Hne || reflexivity).
  assert (Hy : In y (filter (fun a => key a =? key y)%Z l))
    by (rewrite E; left; reflexivity).
  apply filter_In in Hy; exact (proj1 Hy).
Qed.

Lemma sorted_stable_unique (l1 : list A) :
  forall l2,
    StronglySorted (key_ge key) l1 ->
    StronglySorted (key_ge key) l2 ->
    (forall k, filter (fun a => key a =? k)%Z l1
               = filter (fun a => key a =? k)%Z l2) ->
    l1 = l2.
Proof.
  induction l1 as [|x l1 IH]; intros [|y l2] H1 H2 E.
  - reflexivity.
  - specialize (E (key y)); rewrite filter_key_head in E by reflexivity.
    discriminate.
  - specialize (E (key x)); rewrite filter_key_head in E by reflexivity.
    discriminate.
  - assert (Hk : key x = key y).
    { destruct (Z.eq_dec (key x) (key y)) as [Hk|Hne]; [exact Hk|].
      pose proof (in_filter_key_of_head x y l1 l2 Hne (E (key y))) as Hy.
      assert (Hne' : key y <> key x) by congruence.
      pose proof (in_filter_key_of_head y x l2 l1 Hne'
                    (eq_sym (E (key x)))) as Hx.
      pose proof (sorted_head_is_largest x y l1 H1 Hy).
      pose proof (sorted_head_is_largest y x l2 H2 Hx).
      lia. }
    assert (Hxy : x = y).
    { specialize (E (key x)).
      rewrite !filter_key_head in E by congruence.
      congruence. }
    subst y; f_equal.
    apply StronglySorted_inv in H1, H2.
    apply IH; [exact (proj1 H1) | exact (proj1 H2) |].
    intros k; specialize (E k).
    destruct (Z.eq_dec (key x) k) as [Ek|Ek].
    + rewrite !filter_key_head in E by exact Ek; congruence.
    + rewrite !filter_key_skip in E by exact Ek; exact E.
Qed.

Lemma sort_is_the_stable_descending_order (l sorted : list A) :
  StronglySorted (key_ge key) sorted ->
  (forall k, filter (fun a => key a =? k)%Z sorted
             = filter (fun a => key a =? k)%Z l) ->
  sorted = sort compareFn l.
Proof.
  intros Hs Hf; apply sorted_stable_unique;
    [exact Hs | apply sort_sorted |].
  intros k; rewrite Hf, sort_stable; reflexivity.
Qed.

End SortFacts.



(* ===================================================================== *)
(** ** The create form *)
(* ===================================================================== *)

Section CreateForm.
Import Firestore Content.

(** What [handleAddService] does when its guard (line 165) fires. *)
Lemma handleAddService_guarded db userId settlement (w : World) :
  truthy_object db = false
  \/ truthy_nullable_string userId = false
  \/ truthy_string (trim (newService (state w))) = false ->
  exec (handleAddService db userId settlement) w
  = exec (setSubmitError (Some (lit "Service name cannot be empty."))) w.
Proof.
  intros H; unfold handleAddService, exec, bind, get; simpl.
  destruct (truthy_object db), (truthy_nullable_string userId),
    (truthy_string (trim (newService (state w)))); simpl;
    try reflexivity.
  destruct H as [H|[H|H]]; discriminate.
Qed.

(** What it does when the guard lets the write through. *)
Lemma handleAddService_sent db userId settlement (w : World) :
  truthy_object db = true ->
  truthy_nullable_string userId = true ->
  truthy_string (trim (newService (state w))) = true ->
  exec (handleAddService db userId settlement) w
  = exec (setSubmitLoading true ;;
          setSubmitError None ;;
          try_catch_finally
            (_ <- addDoc {| new_name := trim (newService (state w));
                            new_description := trim (newDescription (state w));
                            new_userId := userId;
                            new_timestamp := serverTimestamp |} settlement ;;
             setNewService [] ;;
             setNewDescription [])
            (setSubmitError
               (Some (lit "Failed to add service. Please try again.")))
            (setSubmitLoading false)) w.
Proof.
  intros Hd Hu Hn; unfold handleAddService, exec; simpl.
  unfold bind at 1, get; simpl.
  rewrite Hd, Hu, Hn; reflexivity.
Qed.

(** C3.  Whenever the name typed in the form is empty or made of white
    space only, so that it is empty once trimmed, [handleAddService]
    sends no write request, leaves the collection as it is and sets the
    validation error; this holds whatever the connection and identity
    are and however the backend would have settled a write. *)
Theorem C3_blank_name_no_write_validation_error :
  forall db userId settlement (w : World),
    forallb isWhiteSpace (newService (state w)) = true ->
    let w' := exec (handleAddService db userId settlement) w in
    requests w' = requests w
    /\ backend w' = backend w
    /\ submitError (state w') = Some (lit "Service name cannot be empty.").
Proof.
  intros db userId settlement w H w'; subst w'.
  rewrite handleAddService_guarded
    by (right; right; apply truthy_trim_false; exact H).
  repeat split.
Qed.

Lemma C3_blank_name_witness :
  let w := {| state := {| services := []; newService := lit "  ";
                          newDescription := lit "desc";
                          submitLoading := false; submitError := None |};
              backend := []; requests := [] |} in
  let w' := exec (handleAddService (Some Db) (Some (lit "u1"))
                    (AddFulfilled (lit "d1") {| toDate := 1000 |})) w in
  forallb isWhiteSpace (newService (state w)) = true
  /\ requests w' = [] /\ backend w' = []
  /\ submitError (state w') = Some (lit "Service name cannot be empty.").
Proof.
  intros w; split; [reflexivity|].
  apply (C3_blank_name_no_write_validation_error
           (Some Db) (Some (lit "u1"))
           (AddFulfilled (lit "d1") {| toDate := 1000 |}) w).
  reflexivity.
Defined.

(** C4.  When the connection and the identity are set and the name is not
    empty once trimmed, [handleAddService] sends exactly one write
    request, an [addDoc] of the trimmed name, the trimmed description
    (which may be empty), the identity as [userId] and the server
    timestamp sentinel; when the backend accepts it the collection gains
    exactly that document, stamped with the backend's time, and when it
    rejects it the collection is unchanged.  The published list
    [services] is not touched by the handler, whatever the settlement. *)
Theorem C4_create_sends_one_document_and_no_echo :
  forall db uid settlement (w : World),
    truthy_string uid = true ->
    truthy_string (trim (newService (state w))) = true ->
    let d := {| new_name := trim (newService (state w));
                new_description := trim (newDescription (state w));
                new_userId := Some uid;
                new_timestamp := serverTimestamp |} in
    let w' := exec (handleAddService (Some db) (Some uid) settlement) w in
    requests w' = requests w ++ [AddDoc d]
    /\ services (state w') = services (state w)
    /\ backend w'
       = match settlement with
         | AddFulfilled i now =>
             backend w
             ++ [ {| doc_id := i;
                     doc_name := trim (newService (state w));
                     doc_description := trim (newDescription (state w));
                     doc_userId := Some uid;
                     doc_timestamp := now |} ]
         | AddRejected => backend w
         end.
Proof.
  intros db uid settlement w Hu Hn d w'; subst d w'.
  rewrite handleAddService_sent by (assumption || reflexivity).
  destruct settlement; repeat split.
Qed.

Lemma C4_create_witness :
  let w := {| state := {| services := []; newService := lit " Plumbing ";
                          newDescription := lit "Fix leaks ";
                          submitLoading := false; submitError := None |};
              backend := []; requests := [] |} in
  let w' := exec (handleAddService (Some Db) (Some (lit "u1"))
                    (AddFulfilled (lit "d1") {| toDate := 1000 |})) w in
  (truthy_string (lit "u1") = true
   /\ truthy_string (trim (newService (state w))) = true)
  /\ requests w'
     = [AddDoc {| new_name := lit "Plumbing";
                  new_description := lit "Fix leaks";
                  new_userId := Some (lit "u1");
                  new_timestamp := serverTimestamp |}]
  /\ services (state w') = []
  /\ backend w'
     = [ {| doc_id := lit "d1"; doc_name := lit "Plumbing";
            doc_description := lit "Fix leaks";
            doc_userId := Some (lit "u1");
            doc_timestamp := {| toDate := 1000 |} |} ].
Proof.
  intros w; split; [split; reflexivity|].
  apply (C4_create_sends_one_document_and_no_echo
           Db (lit "u1") (AddFulfilled (lit "d1") {| toDate := 1000 |}) w);
    reflexivity.
Defined.

End CreateForm.


Section CreateFailures.
Import Firestore Content.

(** C7.  When the connection and the identity are set, the name is not
    empty once trimmed and the backend rejects the write,
    [handleAddService] sets the error message of its [catch] branch and
    leaves [newService] and [newDescription] as they were ([submitLoading]
    is back to [false]); had the backend accepted the write, both inputs
    would have been cleared. *)
Theorem C7_failed_write_keeps_inputs :
  forall db uid (w : World),
    truthy_string uid = true ->
    truthy_string (trim (newService (state w))) = true ->
    let failed := exec (handleAddService (Some db) (Some uid) AddRejected) w in
    (submitError (state failed)
     = Some (lit "Failed to add service. Please try again.")
     /\ newService (state failed) = newService (state w)
     /\ newDescription (state failed) = newDescription (state w)
     /\ submitLoading (state failed) = false)
    /\ forall i now,
         let done :=
           exec (handleAddService (Some db) (Some uid) (AddFulfilled i now)) w in
         newService (state done) = []
         /\ newDescription (state done) = []
         /\ submitError (state done) = None.
Proof.
  intros db uid w Hu Hn failed; subst failed; split.
  - rewrite handleAddService_sent by (assumption || reflexivity).
    repeat split.
  - intros i now done; subst done.
    rewrite handleAddService_sent by (assumption || reflexivity).
    repeat split.
Qed.

Lemma C7_failed_write_witness :
  let w := {| state := {| services := []; newService := lit "Painting";
                          newDescription := lit "Walls";
                          submitLoading := false; submitError := None |};
              backend := []; requests := [] |} in
  let failed :=
    exec (handleAddService (Some Db) (Some (lit "u1")) AddRejected) w in
  (truthy_string (lit "u1") = true
   /\ truthy_string (trim (newService (state w))) = true)
  /\ submitError (state failed)
     = Some (lit "Failed to add service. Please try again.")
  /\ newService (state failed) = lit "Painting"
  /\ newDescription (state failed) = lit "Walls"
  /\ submitLoading (state failed) = false.
Proof.
  intros w; split; [split; reflexivity|].
  apply (C7_failed_write_keeps_inputs Db (lit "u1") w); reflexivity.
Defined.

(** C10.  When [db] or [userId] is not set, [handleAddService] sends no
    write request and sets the very message it sets for an empty name,
    "Service name cannot be empty.", whatever the name typed: setting
    that message is all it does, and the message is the one a blank name
    gets under any connection and identity, so that the two violations
    cannot be told apart by what is reported. *)
Theorem C10_unresolved_session_reported_as_empty_name :
  forall db userId settlement (w : World),
    truthy_object db = false \/ truthy_nullable_string userId = false ->
    let w' := exec (handleAddService db userId settlement) w in
    requests w' = requests w
    /\ backend w' = backend w
    /\ submitError (state w') = Some (lit "Service name cannot be empty.")
    /\ w' = exec (setSubmitError (Some (lit "Service name cannot be empty."))) w
    /\ forall db2 userId2 settlement2 (w2 : World),
         forallb isWhiteSpace (newService (state w2)) = true ->
         submitError (state (exec (handleAddService db2 userId2 settlement2) w2))
         = submitError (state w').
Proof.
  intros db userId settlement w H w'; subst w'.
  rewrite handleAddService_guarded by tauto.
  repeat split.
  intros db2 userId2 settlement2 w2 Hb.
  rewrite handleAddService_guarded
    by (right; right; apply truthy_trim_false; exact Hb).
  reflexivity.
Qed.

Lemma C10_unresolved_session_witness :
  let w := {| state := {| services := []; newService := lit "Plumbing";
                          newDescription := lit "Fix leaks";
                          submitLoading := false; submitError := None |};
              backend := []; requests := [] |} in
  let w' := exec (handleAddService (Some Db) None
                    (AddFulfilled (lit "d1") {| toDate := 1000 |})) w in
  truthy_nullable_string None = false
  /\ truthy_string (trim (newService (state w))) = true
  /\ requests w' = [] /\ backend w' = []
  /\ submitError (state w') = Some (lit "Service name cannot be empty.").
Proof.
  intros w.
  destruct (C10_unresolved_session_reported_as_empty_name
              (Some Db) None
              (AddFulfilled (lit "d1") {| toDate := 1000 |}) w
              (or_intror eq_refl)) as (H1 & H2 & H3 & _ & _).
  repeat split; assumption.
Defined.

(** C6.  The error callback of the subscription sets the error message,
    which the form then shows, and leaves the published list exactly as
    it was, whatever it held. *)
Theorem C6_subscription_error_keeps_list :
  forall w : World,
    let w' := exec onSnapshot_error w in
    services (state w') = services (state w)
    /\ submitError (state w') = Some (lit "Failed to load services.")
    /\ truthy_nullable_string (submitError (state w')) = true.
Proof.
  intros w; repeat split.
Qed.

End CreateFailures.


(* ===================================================================== *)
(** ** The published list *)
(* ===================================================================== *)

Section PublishedList.
Import Firestore Content Listing.

Lemma subscribes_true db userId :
  subscribes db userId = true ->
  truthy_object db = true /\ truthy_nullable_string userId = true.
Proof.
  unfold subscribes.
  destruct (truthy_object db), (truthy_nullable_string userId);
    simpl; intros H; (discriminate || split; reflexivity).
Qed.




Lemma filter_filter {A} (p q : A -> bool) (l : list A) :
  filter q (filter p l) = filter (fun x => p x && q x) l.
Proof.
  induction l as [|x l IH]; simpl; [reflexivity|].
  destruct (p x); simpl; [destruct (q x)|]; rewrite IH; reflexivity.
Qed.



End PublishedList.


Section Snapshots.
Import Firestore Content Listing.

Lemma published_eq docs (w : World) :
  published docs w = sort compareFn (map toService docs).
Proof. reflexivity. Qed.




(** The scenario of the specification: Plumbing, then Electrical, then
    Painting created and deleted; the list reads Electrical, Plumbing. *)
Example scenario_electrical_above_plumbing :
  let ops := [ Create (lit "Plumbing") (lit "Fix leaks")
                 (AddFulfilled (lit "d1") {| toDate := 1000 |});
               Create (lit "Electrical") (lit "Wire install")
                 (AddFulfilled (lit "d2") {| toDate := 2000 |});
               Create (lit "Painting") []
                 (AddFulfilled (lit "d3") {| toDate := 3000 |});
               Delete (lit "d3") DeleteFulfilled ] in
  let w' := exec (perform_all (Some Db) (Some (lit "u1")) ops) initialWorld in
  map service_name (published (map acknowledged (backend w')) w')
  = [lit "Electrical"; lit "Plumbing"].
Proof. reflexivity. Qed.


(** A document still waiting for its server timestamp, listed first in
    the snapshot, is published below a document stamped in 2024. *)
Example pending_write_is_published_last :
  let waiting :=
    {| id := lit "a";
       data := {| name := lit "Plumbing"; description := lit "Fix leaks";
                  userId := Some (lit "u1"); timestamp := None |} |} in
  let stamped :=
    {| id := lit "b";
       data := {| name := lit "Electrical"; description := lit "Wire install";
                  userId := Some (lit "u2");
                  timestamp := Some {| toDate := 1717236000000 |} |} |} in
  published [waiting; stamped] initialWorld
  = [toService stamped; toService waiting].
Proof. reflexivity. Qed.


End Snapshots.


(* ===================================================================== *)
(** ** The session *)
(* ===================================================================== *)

Section Session.
Import Provider.

(** [signInUser] when the sign-in is rejected, whichever sign-in it is. *)
Lemma signInUser_rejected initialAuthToken (w : World) :
  state (exec (signInUser initialAuthToken SignInRejected) w)
  = {| app := app (state w); db := db (state w); auth := auth (state w);
       userId := userId (state w); loading := false;
       error := Some authentication_failed |}.
Proof.
  unfold signInUser; destruct initialAuthToken as [token|];
    [destruct (truthy_string token)|]; reflexivity.
Qed.

(** C5, as amended.  When the sign-in of [signInUser] is rejected, the
    message "Failed to authenticate with Firebase." is stored in [error],
    the one error cell of the provider, and the provider renders the
    blocking error notice with that message in place of the application
    body, as it does for a failure of the connection setup. *)
Theorem C5_authentication_failure_renders_error_alert :
  forall initialAuthToken (w : World),
    let w' := exec (signInUser initialAuthToken SignInRejected) w in
    error (state w') = Some authentication_failed
    /\ render (state w') = ErrorAlert authentication_failed
    /\ ~ renders_children (state w').
Proof.
  intros initialAuthToken w w'; subst w'.
  rewrite signInUser_rejected; unfold renders_children; simpl.
  repeat split; intros [v Hv]; discriminate.
Qed.

(** C5 as stated fails: on a first load where the setup succeeds and the
    anonymous sign-in is rejected, the provider shows the error notice
    and not the form and list, before and after the listener has been
    told that there is no user. *)
Lemma C5_authentication_failure_counterexample :
  let w := exec (mount None SetupOk SignInRejected) initialWorld in
  let w' := exec (deliver SignInRejected) w in
  render (state w) = ErrorAlert authentication_failed
  /\ render (state w') = ErrorAlert authentication_failed
  /\ ~ renders_children (state w)
  /\ ~ renders_children (state w').
Proof.
  intros w w'; unfold renders_children.
  repeat split; try reflexivity; intros [v Hv]; discriminate.
Qed.

(** A failure of the setup takes the same render branch. *)
Lemma setup_failure_renders_error_alert initialAuthToken setup settlement :
  setup <> SetupOk ->
  render (state (exec (mount initialAuthToken setup settlement) initialWorld))
  = ErrorAlert
      (lit "Failed to initialize Firebase. Please check the configuration.").
Proof.
  destruct setup; intros H; (reflexivity || contradiction).
Qed.

(** Nothing the provider does afterwards takes the notice away: no handler
    sets [error] back to [null], nor [loading] to [true]. *)
Lemma setter_error_shown (f : State -> State) :
  (forall s, loading (f s) = false \/ loading (f s) = loading s) ->
  (forall s, truthy_nullable_string (error (f s)) = true
             \/ error (f s) = error s) ->
  preserves error_shown (modify (with_state f)).
Proof.
  intros Hl He w [H1 H2]; unfold error_shown; simpl; split.
  - destruct (Hl (state w)) as [E|E]; rewrite E; [reflexivity | exact H1].
  - destruct (He (state w)) as [E|E]; [exact E | rewrite E; exact H2].
Qed.

Lemma service_error_shown (f : World -> World) :
  (forall w, state (f w) = state w) ->
  preserves error_shown (modify f).
Proof.
  intros Hf w H; unfold error_shown, exec; simpl; rewrite Hf; exact H.
Qed.

Ltac keeps_error_shown :=
  repeat match goal with
    | |- preserves _ (ret _) => apply preserves_ret
    | |- preserves _ throw => apply preserves_throw
    | |- preserves _ get => apply preserves_get
    | |- preserves _ (try_catch_finally _ _ _) =>
        apply preserves_try_catch_finally
    | |- preserves _ (try_catch _ _) => apply preserves_try_catch
    | |- preserves _ (bind _ _) => apply preserves_bind; [|intros ?]
    | |- preserves _ (modify (with_state _)) =>
        apply setter_error_shown; intros ?; simpl; auto
    | |- preserves _ (modify _) =>
        apply service_error_shown; intros ?; reflexivity
    end.

Lemma signIn_error_shown c settlement :
  preserves error_shown (signIn c settlement).
Proof.
  unfold signIn, record_call, become; destruct settlement; keeps_error_shown.
Qed.

Lemma signInUser_error_shown initialAuthToken settlement :
  preserves error_shown (signInUser initialAuthToken settlement).
Proof.
  unfold signInUser, signInWithCustomToken, signInAnonymously,
    setError, setLoading.
  destruct initialAuthToken as [token|];
    [destruct (truthy_string token)|];
    keeps_error_shown; apply signIn_error_shown.
Qed.

Lemma react_error_shown e : preserves error_shown (react e).
Proof.
  destruct e as [settlement|out back|]; simpl.
  - unfold deliver.
    apply preserves_bind; [apply preserves_get | intros w].
    destruct (pending w) as [|user rest]; [keeps_error_shown|].
    destruct (listener w) as [closure|]; keeps_error_shown.
    unfold authStateChanged, setUserId, setLoading.
    destruct user as [u|]; keeps_error_shown.
    destruct (closure_loading closure); simpl; keeps_error_shown.
    apply signInUser_error_shown.
  - unfold handleSignOut.
    apply preserves_bind; [apply preserves_get | intros w].
    destruct (truthy_object (auth (state w))); keeps_error_shown.
    + unfold signOut, record_call, become; destruct out; keeps_error_shown.
    + unfold setUserId; keeps_error_shown.
    + unfold signInAnonymously; apply signIn_error_shown.
    + unfold setError; keeps_error_shown.
  - unfold signedOutElsewhere, become; keeps_error_shown.
Qed.

Lemma error_alert_stays es :
  forall w : World,
    error_shown w -> renders_error_alert (state (run es w)).
Proof.
  induction es as [|e es IH]; intros w H; simpl.
  - destruct H as [Hl He]; unfold renders_error_alert, render.
    rewrite Hl; destruct (error (state w)) as [m|]; [|discriminate].
    simpl in He; rewrite He; eauto.
  - apply IH, react_error_shown, H.
Qed.

Lemma authentication_failure_is_not_recovered initialAuthToken es (w : World) :
  renders_error_alert
    (state (run es (exec (signInUser initialAuthToken SignInRejected) w))).
Proof.
  apply error_alert_stays; unfold error_shown.
  rewrite signInUser_rejected; split; reflexivity.
Qed.

End Session.


Section SignOutAndBack.
Import Provider.

(** A successful bootstrap: the setup does not throw, the first sign-in
    is accepted and the two notifications it causes (the one made at
    registration, the one of the sign-in) have been delivered.  The
    listener it leaves registered has closed over [loading = true]. *)
Lemma bootstrap_succeeds initialAuthToken u0 s1 s2 :
  let w := run [Notification s1; Notification s2]
             (exec (mount initialAuthToken SetupOk (SignedIn u0))
                initialWorld) in
  auth (state w) = Some AuthHandle
  /\ userId (state w) = Some (uid u0)
  /\ loading (state w) = false
  /\ error (state w) = None
  /\ listener w = Some {| closure_loading := true;
                          closure_initialAuthToken := initialAuthToken |}
  /\ pending w = []
  /\ renders_children (state w).
Proof.
  unfold renders_children.
  destruct initialAuthToken as [[|c token]|]; simpl;
    repeat split; eexists; reflexivity.
Qed.

(** [handleSignOut] when [auth] is set and both awaited calls are
    fulfilled. *)
Lemma handleSignOut_fulfilled (w : World) a u :
  auth (state w) = Some a ->
  exec (handleSignOut SignedOut (SignedIn u)) w
  = exec (signOut SignedOut ;;
          setUserId None ;;
          signInAnonymously (SignedIn u)) w.
Proof.
  intros Ha; unfold handleSignOut, exec, bind at 1, get.
  rewrite Ha; reflexivity.
Qed.



(** When the re-authentication of line 89 is rejected the handler
    reports "Failed to sign out." and [userId] stays [null]. *)
Lemma sign_out_without_sign_in_back (w : World) a closure s1 :
  auth (state w) = Some a ->
  listener w = Some closure ->
  closure_loading closure = loading initialState ->
  pending w = [] ->
  let settled :=
    run [Notification s1]
      (exec (handleSignOut SignedOut SignInRejected) w) in
  userId (state settled) = None
  /\ error (state settled) = Some (lit "Failed to sign out.")
  /\ pending settled = [].
Proof.
  intros Ha Hl Hc Hp settled; subst settled.
  assert (E : exec (handleSignOut SignedOut SignInRejected) w
              = exec (try_catch
                        (signOut SignedOut ;;
                         setUserId None ;;
                         signInAnonymously SignInRejected)
                        (setError (Some (lit "Failed to sign out.")))) w).
  { unfold handleSignOut, exec, bind at 1, get; rewrite Ha; reflexivity. }
  rewrite E; clear E.
  destruct w as [st cu li pe ca], closure as [captured token].
  simpl in Hl, Hc, Hp; subst li pe captured; simpl; repeat split.
Qed.

(** C9, on the code.  After a successful bootstrap ([loading] is
    [false], nothing is in flight), the user is signed out from outside
    and the listener is told that there is no user: [userId] becomes
    [null] and no call is made to the authentication service, however
    the service would have settled a sign-in.  Line 65 tests the
    [loading] of the first render, which is [true]. *)
Theorem C9_no_sign_in_after_sign_out_elsewhere :
  forall initialAuthToken u0 s1 s2 settlement,
    let ready := run [Notification s1; Notification s2]
                   (exec (mount initialAuthToken SetupOk (SignedIn u0))
                      initialWorld) in
    let after := run [SignedOutElsewhere; Notification settlement] ready in
    loading (state ready) = false
    /\ userId (state ready) = Some (uid u0)
    /\ userId (state after) = None
    /\ currentUser after = None
    /\ calls after = calls ready
    /\ pending after = [].
Proof.
  intros [[|c token]|] u0 s1 s2 settlement; simpl; repeat split.
Qed.

(** The callback does sign in again when the [loading] it reads is
    [false]: the test of line 65 is what stops it. *)
Lemma authStateChanged_signs_in_when_not_loading token (w : World) u :
  let closure := {| closure_loading := false;
                    closure_initialAuthToken := token |} in
  let w' := exec (authStateChanged closure None (SignedIn u)) w in
  exists c, calls w' = calls w ++ [c] /\ currentUser w' = Some u.
Proof.
  destruct token as [[|c token]|]; simpl; eexists; split; reflexivity.
Qed.

End SignOutAndBack.


(* ===================================================================== *)
(** * Further properties of the components *)
(* ===================================================================== *)

(** ** More on [trim] *)

Lemma DocId_eqb_eq (a b : Firestore.DocId) :
  Firestore.DocId_eqb a b = true <-> a = b.
Proof.
  unfold Firestore.DocId_eqb.
  destruct (list_eq_dec N.eq_dec a b); split; (congruence || discriminate).
Qed.

Lemma trimStart_starts_clean (s : jsstring) :
  Happenings.starts_clean (trimStart s).
Proof.
  induction s as [|c s IH]; simpl; [exact I|].
  destruct (isWhiteSpace c) eqn:E; [exact IH | exact E].
Qed.

Lemma trimStart_of_clean (s : jsstring) :
  Happenings.starts_clean s -> trimStart s = s.
Proof.
  destruct s as [|c s]; simpl; [reflexivity|].
  intros ->; reflexivity.
Qed.

(** [trimStart] drops a prefix. *)
Lemma trimStart_suffix (s : jsstring) :
  exists dropped, s = dropped ++ trimStart s.
Proof.
  induction s as [|c s [dropped IH]]; simpl.
  - exists []; reflexivity.
  - destruct (isWhiteSpace c).
    + exists (c :: dropped); simpl; rewrite <- IH; reflexivity.
    + exists []; reflexivity.
Qed.

Lemma starts_clean_app_l (s t : jsstring) :
  Happenings.starts_clean (s ++ t) -> s <> [] -> Happenings.starts_clean s.
Proof.
  destruct s as [|c s]; simpl; [congruence | auto].
Qed.

(** A trimmed string has no white space at either end. *)
Lemma trim_clean (s : jsstring) :
  Happenings.starts_clean (trim s)
  /\ Happenings.starts_clean (rev (trim s)).
Proof.
  unfold trim, trimEnd; rewrite rev_involutive.
  split; [|apply trimStart_starts_clean].
  pose proof (trimStart_starts_clean s) as Hs.
  destruct (trimStart_suffix (rev (trimStart s))) as [dropped E].
  remember (trimStart (rev (trimStart s))) as u eqn:Hu; clear Hu.
  apply (f_equal (@rev _)) in E.
  rewrite rev_involutive, rev_app_distr in E.
  destruct (rev u) as [|c r] eqn:Er; [exact I|].
  rewrite E in Hs; exact Hs.
Qed.

Lemma trim_of_clean (s : jsstring) :
  Happenings.starts_clean s -> Happenings.starts_clean (rev s) ->
  trim s = s.
Proof.
  intros H1 H2; unfold trim, trimEnd.
  rewrite (trimStart_of_clean s H1), (trimStart_of_clean (rev s) H2).
  apply rev_involutive.
Qed.

Lemma trim_idempotent (s : jsstring) : trim (trim s) = trim s.
Proof.
  destruct (trim_clean s) as [H1 H2]; apply trim_of_clean; assumption.
Qed.


(* ===================================================================== *)
(** ** What the handlers of the listing keep *)
(* ===================================================================== *)

Section ContentKeeps.
Import Firestore Content Happenings.

Variable P : World -> Prop.

(** [addDoc] keeps what both of its outcomes keep. *)
Lemma preserves_addDoc d settlement :
  (forall w, P w ->
     P {| state := state w; backend := backend w;
          requests := requests w ++ [AddDoc d] |}) ->
  (forall w i now, P w ->
     P {| state := state w; backend := backend w ++ [store i d now];
          requests := requests w ++ [AddDoc d] |}) ->
  preserves P (addDoc d settlement).
Proof.
  intros Hsent Hstored w H; unfold exec, addDoc.
  destruct settlement as [i now|]; simpl; auto.
Qed.

Lemma preserves_deleteDoc i settlement :
  (forall w, P w ->
     P {| state := state w; backend := backend w;
          requests := requests w ++ [DeleteDoc i] |}) ->
  (forall w, P w ->
     P {| state := state w; backend := remove i (backend w);
          requests := requests w ++ [DeleteDoc i] |}) ->
  preserves P (deleteDoc i settlement).
Proof.
  intros Hsent Hremoved w H; unfold exec, deleteDoc.
  destruct settlement; simpl; auto.
Qed.

End ContentKeeps.

(** Splits a handler into its steps; [leaf] is left with the steps that
    change the world. *)
Ltac keeps_by leaf :=
  repeat match goal with
    | |- preserves _ (ret _) => apply preserves_ret
    | |- preserves _ throw => apply preserves_throw
    | |- preserves _ get => apply preserves_get
    | |- preserves _ (try_catch_finally _ _ _) =>
        apply preserves_try_catch_finally
    | |- preserves _ (try_catch _ _) => apply preserves_try_catch
    | |- preserves _ (bind _ _) => apply preserves_bind; [|intros ?]
    | |- preserves _ (modify _) => apply preserves_modify; leaf
    | |- preserves _ (Content.addDoc _ _) => apply preserves_addDoc; leaf
    | |- preserves _ (Content.deleteDoc _ _) =>
        apply preserves_deleteDoc; leaf
    end.

Ltac unfold_setters :=
  unfold Content.setSubmitError, Content.setSubmitLoading,
    Content.setNewService, Content.setNewDescription, Content.setServices.

Section ContentInvariants.
Import Firestore Content Happenings.

(** A property of the collection and of the requests is kept by every
    step that only sets a state cell. *)
Lemma handleAddService_keeps (P : World -> Prop) db userId settlement :
  (forall f w, P w -> P (with_state f w)) ->
  (forall d w, P w ->
     truthy_object db = true ->
     truthy_nullable_string userId = true ->
     new_name d <> [] ->
     new_name d = trim (new_name d) ->
     new_description d = trim (new_description d) ->
     new_userId d = userId ->
     P {| state := state w; backend := backend w;
          requests := requests w ++ [AddDoc d] |}) ->
  (forall d w i now, P w ->
     truthy_object db = true ->
     truthy_nullable_string userId = true ->
     new_name d <> [] ->
     new_name d = trim (new_name d) ->
     new_description d = trim (new_description d) ->
     new_userId d = userId ->
     P {| state := state w; backend := backend w ++ [store i d now];
          requests := requests w ++ [AddDoc d] |}) ->
  preserves P (handleAddService db userId settlement).
Proof.
  intros Hset Hsent Hstored; unfold handleAddService.
  apply preserves_bind; [apply preserves_get | intros w0]; cbv zeta.
  destruct (truthy_object db) eqn:Hd;
    destruct (truthy_nullable_string userId) eqn:Hu;
    destruct (truthy_string (trim (newService (state w0)))) eqn:Hn;
    simpl; unfold_setters;
    try (keeps_by ltac:(intros ? ?; apply Hset; assumption)).
  assert (Hne : trim (newService (state w0)) <> [])
    by (intros E; rewrite E in Hn; discriminate).
  keeps_by ltac:(first
    [ intros ? ?; apply Hset; assumption
    | intros; first [apply Hsent | apply Hstored]; simpl;
      rewrite ?trim_idempotent; auto ]).
Qed.

Lemma handleDeleteService_keeps (P : World -> Prop)
      db userId serviceId settlement :
  (forall f w, P w -> P (with_state f w)) ->
  (forall w, P w ->
     P {| state := state w; backend := backend w;
          requests := requests w ++ [DeleteDoc serviceId] |}) ->
  (forall w, P w ->
     P {| state := state w; backend := remove serviceId (backend w);
          requests := requests w ++ [DeleteDoc serviceId] |}) ->
  preserves P (handleDeleteService db userId serviceId settlement).
Proof.
  intros Hset Hsent Hremoved; unfold handleDeleteService.
  destruct (truthy_object db), (truthy_nullable_string userId); simpl;
    unfold_setters;
    keeps_by ltac:(first
      [ intros ? ?; apply Hset; assumption
      | intros; first [apply Hsent | apply Hremoved]; assumption ]).
Qed.

Lemma run_keeps (P : World -> Prop) db userId hs :
  (forall h, In h hs -> preserves P (react db userId h)) ->
  forall w, P w -> P (run db userId hs w).
Proof.
  induction hs as [|h hs IH]; intros Hh w H; simpl; [exact H|].
  apply IH; [intros h' Hin; apply Hh; right; exact Hin|].
  apply (Hh h); [left; reflexivity | exact H].
Qed.

End ContentInvariants.




Section ContentExtras.
Import Firestore Content Happenings.

Lemma subscribes_false db userId :
  subscribes db userId = false ->
  truthy_object db = false \/ truthy_nullable_string userId = false.
Proof.
  unfold subscribes.
  destruct (truthy_object db), (truthy_nullable_string userId);
    simpl; intros H; (discriminate || auto).
Qed.

(** X1.  With the connection and the identity set, a press on a delete
    button sends exactly one [deleteDoc], for the id of the row, without
    looking at who wrote the document.  When the backend accepts it the
    documents of that id, and only they, leave the collection and the
    component's state is untouched; when it rejects it the collection is
    unchanged and only the error message changes. *)
Theorem X1_delete_click_sends_one_request_for_any_author :
  forall db userId serviceId settlement (w : World),
    subscribes db userId = true ->
    let w' := exec (handleDeleteService db userId serviceId settlement) w in
    requests w' = requests w ++ [DeleteDoc serviceId]
    /\ services (state w') = services (state w)
    /\ newService (state w') = newService (state w)
    /\ newDescription (state w') = newDescription (state w)
    /\ submitLoading (state w') = submitLoading (state w)
    /\ match settlement with
       | DeleteFulfilled =>
           submitError (state w') = submitError (state w)
           /\ forall d, In d (backend w')
                        <-> In d (backend w) /\ doc_id d <> serviceId
       | DeleteRejected =>
           submitError (state w')
           = Some (lit "Failed to delete service. Please try again.")
           /\ backend w' = backend w
       end.
Proof.
  intros db userId serviceId settlement w Hs w'; subst w'.
  apply subscribes_true in Hs; destruct Hs as [Hd Hu].
  unfold handleDeleteService; rewrite Hd, Hu; simpl.
  destruct settlement; simpl; repeat split; try tauto.
  - unfold remove in H; apply filter_In in H; tauto.
  - unfold remove in H; apply filter_In in H; destruct H as [_ H].
    intros E; apply DocId_eqb_eq in E; rewrite E in H; discriminate.
  - intros [Hin Hne]; unfold remove; apply filter_In; split; [exact Hin|].
    destruct (DocId_eqb (doc_id d) serviceId) eqn:E; [|reflexivity].
    apply DocId_eqb_eq in E; contradiction.
Qed.

Lemma X1_delete_click_witness :
  let mine := {| doc_id := lit "d1"; doc_name := lit "Plumbing";
                 doc_description := []; doc_userId := Some (lit "u1");
                 doc_timestamp := {| toDate := 1000 |} |} in
  let theirs := {| doc_id := lit "d2"; doc_name := lit "Electrical";
                   doc_description := []; doc_userId := Some (lit "u2");
                   doc_timestamp := {| toDate := 2000 |} |} in
  let w := {| state := initialState; backend := [mine; theirs];
              requests := [] |} in
  let w' := exec (handleDeleteService (Some Db) (Some (lit "u1"))
                    (lit "d2") DeleteFulfilled) w in
  subscribes (Some Db) (Some (lit "u1")) = true
  /\ requests w' = [DeleteDoc (lit "d2")]
  /\ backend w' = [mine].
Proof.
  intros mine theirs w w'.
  pose proof (X1_delete_click_sends_one_request_for_any_author
                (Some Db) (Some (lit "u1")) (lit "d2") DeleteFulfilled w
                eq_refl) as (H & _).
  split; [reflexivity|]; split; [exact H | reflexivity].
Defined.





(** X3.  While the connection or the identity is not set, nothing the
    user does reaches the backend: whatever is typed, pressed or
    received, no request is sent and the collection is unchanged; a
    press on a delete button changes nothing at all, not even the error
    message. *)
Theorem X3_nothing_is_sent_without_a_session :
  forall db userId hs (w : World),
    subscribes db userId = false ->
    (requests (run db userId hs w) = requests w
     /\ backend (run db userId hs w) = backend w)
    /\ forall serviceId settlement,
         exec (handleDeleteService db userId serviceId settlement) w = w.
Proof.
  intros db userId hs w Hs; apply subscribes_false in Hs; split.
  - apply (run_keeps
             (fun w' => requests w' = requests w /\ backend w' = backend w));
      [|split; reflexivity].
    intros h _; destruct h; simpl; unfold onChange_name,
      onChange_description, onSnapshot_next, onSnapshot_error;
      unfold_setters;
      try (keeps_by ltac:(intros ? ?; assumption)).
    + apply handleAddService_keeps; intros; try assumption;
        destruct Hs; congruence.
    + unfold handleDeleteService.
      destruct Hs as [-> | ->]; simpl; rewrite ?orb_true_r;
        apply preserves_ret.
  - intros serviceId settlement; unfold handleDeleteService.
    destruct Hs as [-> | ->]; simpl; rewrite ?orb_true_r; reflexivity.
Qed.

Lemma X3_nothing_is_sent_witness :
  let hs := [ TypeName (lit "Plumbing");
              ClickAdd (AddFulfilled (lit "d1") {| toDate := 1000 |});
              ClickDelete (lit "d0") DeleteFulfilled ] in
  subscribes (Some Db) None = false
  /\ requests (run (Some Db) None hs initialWorld) = []
  /\ backend (run (Some Db) None hs initialWorld) = [].
Proof.
  intros hs; split; [reflexivity|].
  exact (proj1 (X3_nothing_is_sent_without_a_session
                  (Some Db) None hs initialWorld eq_refl)).
Defined.

End ContentExtras.


Section ContentSequences.
Import Firestore Content Happenings.

Lemma well_formed_store userId d i now :
  new_name d <> [] ->
  new_name d = trim (new_name d) ->
  new_description d = trim (new_description d) ->
  new_userId d = userId ->
  well_formed userId (store i d now).
Proof.
  intros Hne Hn Hd Hu; unfold well_formed, store; simpl.
  rewrite Hn, Hd at 1.
  pose proof (trim_clean (new_name d)) as [H1 H2].
  pose proof (trim_clean (new_description d)) as [H3 H4].
  rewrite <- Hn in *; rewrite <- Hd in *.
  repeat split; assumption.
Qed.

Lemma run_keeps_well_formed db userId hs (w : World) :
  Forall (well_formed userId) (backend w) ->
  Forall (well_formed userId) (backend (run db userId hs w)).
Proof.
  intros H.
  apply (run_keeps (fun w' => Forall (well_formed userId) (backend w')));
    [|exact H].
  intros h _; destruct h; simpl; unfold onChange_name,
    onChange_description, onSnapshot_next, onSnapshot_error;
    unfold_setters;
    try (keeps_by ltac:(intros ? ?; assumption)).
  - apply handleAddService_keeps; simpl; intros; try assumption.
    apply Forall_app; split; [assumption|].
    constructor; [|constructor].
    apply well_formed_store; assumption.
  - apply handleDeleteService_keeps; simpl; intros; try assumption.
    unfold remove; apply Forall_forall; intros d Hd.
    apply filter_In in Hd; destruct Hd as [Hd _].
    rewrite Forall_forall in H0; exact (H0 d Hd).
Qed.

(** X4.  Whatever is typed, pressed or received, and however the backend
    settles the writes, every document the component adds to the
    collection has a name that is not empty, a name and a description
    with no white space at either end, and the session's [userId] as
    author: a collection of such documents stays one. *)
Theorem X4_stored_documents_are_trimmed_and_named :
  forall db userId hs (w : World),
    Forall (well_formed userId) (backend w) ->
    Forall (well_formed userId) (backend (run db userId hs w)).
Proof.
  intros db userId hs w; apply run_keeps_well_formed.
Qed.

Lemma X4_stored_documents_witness :
  let hs := [ TypeName (lit "  Plumbing ");
              TypeDescription (lit "   ");
              ClickAdd (AddFulfilled (lit "d1") {| toDate := 1000 |});
              TypeName (lit "   ");
              ClickAdd (AddFulfilled (lit "d2") {| toDate := 2000 |}) ] in
  let w := run (Some Db) (Some (lit "u1")) hs initialWorld in
  Forall (well_formed (Some (lit "u1"))) (backend initialWorld)
  /\ map doc_name (backend w) = [lit "Plumbing"]
  /\ Forall (well_formed (Some (lit "u1"))) (backend w).
Proof.
  intros hs w.
  assert (H0 : Forall (well_formed (Some (lit "u1"))) (backend initialWorld))
    by constructor.
  split; [exact H0|]; split; [reflexivity|].
  exact (X4_stored_documents_are_trimmed_and_named
           (Some Db) (Some (lit "u1")) hs initialWorld H0).
Defined.

Lemma react_keeps_services db userId h (w : World) :
  is_snapshot h = false ->
  services (state (exec (react db userId h) w)) = services (state w).
Proof.
  intros Hh; destruct h as [v|v|s|i s|docs|]; try discriminate;
    try reflexivity; simpl.
  - unfold handleAddService, exec, bind, get; simpl.
    destruct (truthy_object db), (truthy_nullable_string userId),
      (truthy_string (trim (newService (state w)))); simpl;
      try reflexivity.
    destruct s; reflexivity.
  - unfold handleDeleteService.
    destruct (truthy_object db), (truthy_nullable_string userId); simpl;
      try reflexivity.
    destruct s; reflexivity.
Qed.

(** X5.  The published list changes with snapshots and with nothing
    else: after any sequence of typing, presses, snapshots and
    subscription errors it is the sorted content of the last snapshot
    received, and the list it was at the start when none was received.
    No press on "Add Service" or on a delete button echoes into it. *)
Theorem X5_list_is_the_last_snapshot :
  forall db userId hs (w : World),
    services (state (run db userId hs w))
    = match last_snapshot hs with
      | Some docs => sort compareFn (map toService docs)
      | None => services (state w)
      end.
Proof.
  intros db userId hs; induction hs as [|h hs IH]; intros w; simpl;
    [reflexivity|].
  rewrite IH; destruct (last_snapshot hs); [reflexivity|].
  destruct (is_snapshot h) eqn:Hh.
  - destruct h; try discriminate; reflexivity.
  - rewrite (react_keeps_services db userId h w Hh).
    destruct h; (discriminate || reflexivity).
Qed.

Lemma react_keeps_error db userId h (w : World) :
  is_add h = false ->
  truthy_nullable_string (submitError (state w)) = true ->
  truthy_nullable_string (submitError (state (exec (react db userId h) w)))
  = true.
Proof.
  intros Hh H; destruct h as [v|v|s|i s|docs|]; try discriminate;
    try exact H; try reflexivity; simpl.
  unfold handleDeleteService.
  destruct (truthy_object db), (truthy_nullable_string userId); simpl;
    try exact H.
  destruct s; [exact H | reflexivity].
Qed.

(** X6.  An error message, once shown, stays on screen until "Add
    Service" is pressed: no snapshot, accepted delete or typing clears
    it, so that the message of a failed subscription or of a failed
    delete outlives the snapshots that follow. *)
Theorem X6_error_message_stays_until_next_add :
  forall db userId hs (w : World),
    truthy_nullable_string (submitError (state w)) = true ->
    forallb (fun h => negb (is_add h)) hs = true ->
    let w' := run db userId hs w in
    truthy_nullable_string (submitError (state w')) = true
    /\ Screen.alert (Screen.render userId (state w'))
       = submitError (state w').
Proof.
  intros db userId hs w H Hhs w'; subst w'.
  assert (Ht : truthy_nullable_string
                 (submitError (state (run db userId hs w))) = true).
  { revert w H; induction hs as [|h hs IH]; intros w H; simpl;
      [exact H|].
    simpl in Hhs; apply andb_prop in Hhs; destruct Hhs as [Hh Hhs].
    apply IH; [exact Hhs|].
    apply react_keeps_error; [|exact H].
    destruct (is_add h); [discriminate | reflexivity]. }
  split; [exact Ht|].
  unfold Screen.render; simpl; rewrite Ht; reflexivity.
Qed.

Lemma X6_error_message_witness :
  let plumbing :=
    {| id := lit "d1";
       data := {| name := lit "Plumbing"; description := [];
                  userId := Some (lit "u1");
                  timestamp := Some {| toDate := 1000 |} |} |} in
  let failed := exec onSnapshot_error initialWorld in
  let hs := [ SnapshotArrives [plumbing];
              ClickDelete (lit "d1") DeleteFulfilled;
              SnapshotArrives [] ] in
  let w' := run (Some Db) (Some (lit "u1")) hs failed in
  (truthy_nullable_string (submitError (state failed)) = true
   /\ forallb (fun h => negb (is_add h)) hs = true)
  /\ Screen.alert (Screen.render (Some (lit "u1")) (state w'))
     = Some (lit "Failed to load services.").
Proof.
  intros plumbing failed hs w'.
  split; [split; reflexivity|].
  destruct (X6_error_message_stays_until_next_add
              (Some Db) (Some (lit "u1")) hs failed eq_refl eq_refl)
    as [_ H].
  exact H.
Defined.

End ContentSequences.


(* ===================================================================== *)
(** ** A create in flight *)
(* ===================================================================== *)

Section CreateInFlight.
Import Firestore Content InFlight.

(** The document [handleAddService] asks the backend to add. *)
Lemma handleAddService_called_sent db userId (w : World) :
  truthy_object db = true ->
  truthy_nullable_string userId = true ->
  truthy_string (trim (newService (state w))) = true ->
  handleAddService_called db userId w
  = (Normal (Some {| new_name := trim (newService (state w));
                     new_description := trim (newDescription (state w));
                     new_userId := userId;
                     new_timestamp := serverTimestamp |}),
     {| state := {| services := services (state w);
                    newService := newService (state w);
                    newDescription := newDescription (state w);
                    submitLoading := true;
                    submitError := None |};
        backend := backend w;
        requests :=
          requests w
          ++ [AddDoc {| new_name := trim (newService (state w));
                        new_description := trim (newDescription (state w));
                        new_userId := userId;
                        new_timestamp := serverTimestamp |}] |}).
Proof.
  intros Hd Hu Hn; unfold handleAddService_called, bind at 1, get; simpl.
  rewrite Hd, Hu, Hn; reflexivity.
Qed.


(** X8.  While a create is in flight, that is once the guard has let
    it through and until the backend settles the write, the request has
    been sent, the previous error message is gone, the inputs still hold
    what was typed and the "Add Service" button is disabled and shows
    the spinner; once the write is settled, either way, the button is
    enabled again. *)
Theorem X8_button_is_disabled_while_in_flight :
  forall db userId (w : World),
    subscribes db userId = true ->
    truthy_string (trim (newService (state w))) = true ->
    let d := {| new_name := trim (newService (state w));
                new_description := trim (newDescription (state w));
                new_userId := userId;
                new_timestamp := serverTimestamp |} in
    let flying := exec (handleAddService_called db userId) w in
    (fst (handleAddService_called db userId w) = Normal (Some d)
     /\ requests flying = requests w ++ [AddDoc d]
     /\ backend flying = backend w
     /\ submitError (state flying) = None
     /\ newService (state flying) = newService (state w)
     /\ newDescription (state flying) = newDescription (state w)
     /\ Screen.add_disabled (Screen.render userId (state flying)) = true
     /\ Screen.add_label (Screen.render userId (state flying))
        = Screen.Spinner)
    /\ forall settlement,
         let landed :=
           exec (handleAddService_resumed d settlement) flying in
         Screen.add_disabled (Screen.render userId (state landed)) = false
         /\ Screen.add_label (Screen.render userId (state landed))
            = Screen.AddServiceText.
Proof.
  intros db userId w Hs Hn d flying; subst d flying.
  apply subscribes_true in Hs; destruct Hs as [Hd Hu].
  unfold exec; rewrite (handleAddService_called_sent db userId w Hd Hu Hn).
  split; [repeat split|].
  intros settlement; destruct settlement; split; reflexivity.
Qed.

Lemma X8_button_is_disabled_witness :
  let w := {| state := {| services := []; newService := lit "Plumbing";
                          newDescription := lit "Fix leaks";
                          submitLoading := false;
                          submitError := Some (lit "Failed to load services.") |};
              backend := []; requests := [] |} in
  let flying :=
    exec (handleAddService_called (Some Db) (Some (lit "u1"))) w in
  (subscribes (Some Db) (Some (lit "u1")) = true
   /\ truthy_string (trim (newService (state w))) = true)
  /\ submitError (state flying) = None
  /\ Screen.add_disabled
       (Screen.render (Some (lit "u1")) (state flying)) = true.
Proof.
  intros w flying; split; [split; reflexivity|].
  destruct (X8_button_is_disabled_while_in_flight
              (Some Db) (Some (lit "u1")) w eq_refl eq_refl)
    as [(_ & _ & _ & H1 & _ & _ & H2 & _) _].
  split; [exact H1 | exact H2].
Defined.

(** X9.  What is typed while a create is in flight does not reach the
    document, which holds the name and description of the moment of the
    press, trimmed.  When the write is accepted both inputs are emptied,
    whatever was typed into them meanwhile; when it is rejected they are
    left as they are at that moment, so what was typed meanwhile stays. *)
Theorem X9_typing_during_flight :
  forall db userId typedName typedDescription (w : World),
    subscribes db userId = true ->
    truthy_string (trim (newService (state w))) = true ->
    let d := {| new_name := trim (newService (state w));
                new_description := trim (newDescription (state w));
                new_userId := userId;
                new_timestamp := serverTimestamp |} in
    let flying :=
      exec (onChange_name typedName ;;
            onChange_description typedDescription)
           (exec (handleAddService_called db userId) w) in
    (forall i now,
       let landed :=
         exec (handleAddService_resumed d (AddFulfilled i now)) flying in
       backend landed = backend w ++ [store i d now]
       /\ newService (state landed) = []
       /\ newDescription (state landed) = [])
    /\ let landed := exec (handleAddService_resumed d AddRejected) flying in
       backend landed = backend w
       /\ newService (state landed) = typedName
       /\ newDescription (state landed) = typedDescription
       /\ submitError (state landed)
          = Some (lit "Failed to add service. Please try again.").
Proof.
  intros db userId typedName typedDescription w Hs Hn d flying.
  subst d flying.
  apply subscribes_true in Hs; destruct Hs as [Hd Hu].
  assert (E : exec (handleAddService_called db userId) w
              = snd (handleAddService_called db userId w)) by reflexivity.
  rewrite E, (handleAddService_called_sent db userId w Hd Hu Hn); clear E.
  split; [intros i now landed; subst landed|]; repeat split.
Qed.

Lemma X9_typing_during_flight_witness :
  let w := {| state := {| services := []; newService := lit "Plumbing";
                          newDescription := lit "Fix leaks";
                          submitLoading := false; submitError := None |};
              backend := []; requests := [] |} in
  let d := {| new_name := lit "Plumbing"; new_description := lit "Fix leaks";
              new_userId := Some (lit "u1");
              new_timestamp := serverTimestamp |} in
  let flying :=
    exec (onChange_name (lit "Electrical") ;; onChange_description [])
         (exec (handleAddService_called (Some Db) (Some (lit "u1"))) w) in
  let landed :=
    exec (handleAddService_resumed d
            (AddFulfilled (lit "d1") {| toDate := 1000 |})) flying in
  (subscribes (Some Db) (Some (lit "u1")) = true
   /\ truthy_string (trim (newService (state w))) = true)
  /\ map doc_name (backend landed) = [lit "Plumbing"]
  /\ newService (state flying) = lit "Electrical"
  /\ newService (state landed) = [].
Proof.
  intros w d flying landed; split; [split; reflexivity|].
  destruct (X9_typing_during_flight
              (Some Db) (Some (lit "u1")) (lit "Electrical") [] w
              eq_refl eq_refl) as [H _].
  destruct (H (lit "d1") {| toDate := 1000 |}) as (H1 & H2 & _).
  split; [|split; [reflexivity | exact H2]].
  exact (f_equal (map doc_name) H1).
Defined.

(** X10.  [handleAddService] does not look at [submitLoading]: a second
    press that reaches it while the first create is in flight sends the
    same document again, and when the backend accepts both the
    collection holds two documents of that name. *)
Theorem X10_second_press_in_flight_writes_twice :
  forall db userId i1 now1 i2 now2 (w : World),
    subscribes db userId = true ->
    truthy_string (trim (newService (state w))) = true ->
    let d := {| new_name := trim (newService (state w));
                new_description := trim (newDescription (state w));
                new_userId := userId;
                new_timestamp := serverTimestamp |} in
    let pressed_twice :=
      exec (handleAddService_called db userId ;;
            handleAddService_called db userId) w in
    let landed :=
      exec (handleAddService_resumed d (AddFulfilled i1 now1) ;;
            handleAddService_resumed d (AddFulfilled i2 now2))
           pressed_twice in
    submitLoading (state (exec (handleAddService_called db userId) w)) = true
    /\ requests pressed_twice = requests w ++ [AddDoc d; AddDoc d]
    /\ backend landed = backend w ++ [store i1 d now1; store i2 d now2].
Proof.
  intros db userId i1 now1 i2 now2 w Hs Hn d pressed_twice landed.
  subst d pressed_twice landed.
  apply subscribes_true in Hs; destruct Hs as [Hd Hu].
  unfold exec, bind.
  rewrite (handleAddService_called_sent db userId w Hd Hu Hn); simpl.
  rewrite handleAddService_called_sent by (assumption || exact Hn); simpl.
  rewrite <- !app_assoc; repeat split.
Qed.

Lemma X10_second_press_witness :
  let w := {| state := {| services := []; newService := lit "Plumbing";
                          newDescription := [];
                          submitLoading := false; submitError := None |};
              backend := []; requests := [] |} in
  let d := {| new_name := lit "Plumbing"; new_description := [];
              new_userId := Some (lit "u1");
              new_timestamp := serverTimestamp |} in
  let pressed_twice :=
    exec (handleAddService_called (Some Db) (Some (lit "u1")) ;;
          handleAddService_called (Some Db) (Some (lit "u1"))) w in
  (subscribes (Some Db) (Some (lit "u1")) = true
   /\ truthy_string (trim (newService (state w))) = true)
  /\ requests pressed_twice = [AddDoc d; AddDoc d].
Proof.
  intros w d pressed_twice; split; [split; reflexivity|].
  destruct (X10_second_press_in_flight_writes_twice
              (Some Db) (Some (lit "u1"))
              (lit "d1") {| toDate := 1000 |} (lit "d2") {| toDate := 2000 |}
              w eq_refl eq_refl) as (_ & H & _).
  exact H.
Defined.

End CreateInFlight.


(* ===================================================================== *)
(** ** The order of the list and the rows on screen *)
(* ===================================================================== *)

Section SortMore.
Variable A : Type.
Variable compareFn : A -> A -> Z.
Variable key : A -> Z.
Hypothesis compareFn_key : forall a b, compareFn a b = (key b - key a)%Z.

Lemma StronglySorted_filter (R : A -> A -> Prop) (p : A -> bool) l :
  StronglySorted R l -> StronglySorted R (filter p l).
Proof.
  induction 1 as [|x l Hs IH Hx]; simpl; [constructor|].
  destruct (p x); [|exact IH].
  constructor; [exact IH|].
  rewrite Forall_forall in Hx |- *; intros y Hy.
  apply filter_In in Hy; exact (Hx y (proj1 Hy)).
Qed.

Lemma filter_comm (p q : A -> bool) l :
  filter p (filter q l) = filter q (filter p l).
Proof.
  rewrite !filter_filter; apply filter_ext; intros x; apply andb_comm.
Qed.

(** Sorting what is left of a list is what is left of the sorted list. *)
Lemma sort_filter (p : A -> bool) l :
  sort compareFn (filter p l) = filter p (sort compareFn l).
Proof.
  symmetry; apply (sort_is_the_stable_descending_order _ compareFn key);
    [exact compareFn_key | |].
  - apply StronglySorted_filter, sort_sorted, compareFn_key.
  - intros k; rewrite filter_comm.
    rewrite (sort_stable _ compareFn key compareFn_key).
    apply filter_comm.
Qed.




End SortMore.


Section RowsOnScreen.
Import Firestore Content Happenings.

Lemma compareFn_time_of (a b : Service) :
  compareFn a b = (time_of b - time_of a)%Z.
Proof. reflexivity. Qed.

(** The rows on screen are the published list, row by row. *)
Lemma rows_render userId (s : State) :
  Screen.rows (Screen.render userId s) = map Screen.toRow (services s).
Proof.
  unfold Screen.rows, Screen.render; simpl.
  destruct (services s); reflexivity.
Qed.

Lemma available_notice userId (s : State) :
  Screen.available (Screen.render userId s) = Screen.NoServicesYet
  <-> services s = [].
Proof.
  unfold Screen.render; simpl.
  destruct (services s); split; intros H; (reflexivity || discriminate).
Qed.



(** X12.  After a snapshot there is one row per document of the
    snapshot, the rows' keys are the documents' ids, and the notice "No
    services added yet" takes the place of the rows exactly when the
    snapshot is empty; when the ids of the snapshot are distinct, so are
    the keys React is given. *)
Theorem X12_one_row_per_document_with_distinct_keys :
  forall userId docs (w : World),
    NoDup (map id docs) ->
    let screen :=
      Screen.render userId (state (exec (onSnapshot_next docs) w)) in
    NoDup (map Screen.row_key (Screen.rows screen))
    /\ Permutation (map Screen.row_key (Screen.rows screen)) (map id docs)
    /\ List.length (Screen.rows screen) = List.length docs
    /\ (Screen.available screen = Screen.NoServicesYet <-> docs = []).
Proof.
  intros userId docs w Hn screen.
  assert (Hp : Permutation (services (state (exec (onSnapshot_next docs) w)))
                 (map toService docs)).
  { change (Permutation (Listing.published docs w) (map toService docs)).
    rewrite published_eq; apply sort_Permutation. }
  assert (Hk : Permutation (map Screen.row_key (Screen.rows screen))
                 (map id docs)).
  { subst screen; rewrite rows_render, map_map.
    rewrite (Permutation_map _ Hp), map_map; reflexivity. }
  split; [|split; [exact Hk|split]].
  - apply (Permutation_NoDup (Permutation_sym Hk)), Hn.
  - apply Permutation_length in Hk; rewrite !List.length_map in Hk; exact Hk.
  - apply Permutation_length in Hp; rewrite List.length_map in Hp.
    subst screen; rewrite available_notice.
    destruct (services (state (exec (onSnapshot_next docs) w)));
      destruct docs; simpl in Hp; split; intros H;
      first [reflexivity | discriminate Hp | discriminate H].
Qed.

Lemma X12_one_row_per_document_witness :
  let plumbing :=
    {| id := lit "d1";
       data := {| name := lit "Plumbing"; description := [];
                  userId := Some (lit "u1"); timestamp := None |} |} in
  let electrical :=
    {| id := lit "d2";
       data := {| name := lit "Electrical"; description := [];
                  userId := Some (lit "u2");
                  timestamp := Some {| toDate := 2000 |} |} |} in
  let screen :=
    Screen.render (Some (lit "u1"))
      (state (exec (onSnapshot_next [plumbing; electrical]) initialWorld)) in
  NoDup (map id [plumbing; electrical])
  /\ NoDup (map Screen.row_key (Screen.rows screen))
  /\ List.length (Screen.rows screen) = 2.
Proof.
  intros plumbing electrical screen.
  assert (Hn : NoDup (map id [plumbing; electrical])).
  { simpl; repeat constructor; simpl; intuition discriminate. }
  destruct (X12_one_row_per_document_with_distinct_keys
              (Some (lit "u1")) [plumbing; electrical] initialWorld Hn)
    as (H1 & _ & H3 & _).
  split; [exact Hn | split; [exact H1 | exact H3]].
Defined.

Lemma filter_map_comm {A B} (f : A -> B) (p : B -> bool) (l : list A) :
  filter p (map f l) = map f (filter (fun a => p (f a)) l).
Proof.
  induction l as [|a l IH]; simpl; [reflexivity|].
  destruct (p (f a)); simpl; rewrite IH; reflexivity.
Qed.

(** X13.  When the backend accepts a delete, the list published from
    the collection afterwards is the list published from it before with
    the records of that id taken out: the other records keep their
    places relative to one another, and so do their rows. *)
Theorem X13_delete_takes_the_row_out_and_keeps_the_order :
  forall db userId serviceId (w : World),
    subscribes db userId = true ->
    let before := Listing.published (map acknowledged (backend w)) w in
    let w' :=
      exec (handleDeleteService db userId serviceId DeleteFulfilled) w in
    let after := Listing.published (map acknowledged (backend w')) w' in
    after
    = filter (fun s => negb (DocId_eqb (service_id s) serviceId)) before
    /\ map Screen.toRow after
       = filter (fun r => negb (DocId_eqb (Screen.row_key r) serviceId))
                (map Screen.toRow before).
Proof.
  intros db userId serviceId w Hs before w' after.
  assert (E : after
              = filter (fun s => negb (DocId_eqb (service_id s) serviceId))
                       before).
  { subst before w' after.
    apply subscribes_true in Hs; destruct Hs as [Hd Hu].
    unfold handleDeleteService; rewrite Hd, Hu; simpl.
    rewrite !published_eq; simpl.
    rewrite <- (sort_filter _ compareFn time_of compareFn_time_of).
    f_equal; unfold remove.
    rewrite !map_map, filter_map_comm; reflexivity. }
  split; [exact E|].
  rewrite E, filter_map_comm; reflexivity.
Qed.

Lemma X13_delete_takes_the_row_out_witness :
  let doc (i n : jsstring) (t : Z) :=
    {| doc_id := i; doc_name := n; doc_description := [];
       doc_userId := Some (lit "u1"); doc_timestamp := {| toDate := t |} |} in
  let w := {| state := initialState;
              backend := [ doc (lit "d1") (lit "Plumbing") 1000%Z;
                           doc (lit "d2") (lit "Electrical") 3000%Z;
                           doc (lit "d3") (lit "Painting") 2000%Z ];
              requests := [] |} in
  let w' := exec (handleDeleteService (Some Db) (Some (lit "u1"))
                    (lit "d3") DeleteFulfilled) w in
  subscribes (Some Db) (Some (lit "u1")) = true
  /\ map service_name (Listing.published (map acknowledged (backend w)) w)
     = [lit "Electrical"; lit "Painting"; lit "Plumbing"]
  /\ map service_name (Listing.published (map acknowledged (backend w')) w')
     = [lit "Electrical"; lit "Plumbing"].
Proof.
  intros doc w w'.
  destruct (X13_delete_takes_the_row_out_and_keeps_the_order
              (Some Db) (Some (lit "u1")) (lit "d3") w eq_refl) as [H _].
  split; [reflexivity|]; split; [reflexivity|].
  exact (f_equal (map service_name) H).
Defined.

Lemma descriptionOrDefault_not_empty description :
  Screen.descriptionOrDefault description <> [].
Proof.
  unfold Screen.descriptionOrDefault.
  destruct description; simpl; discriminate.
Qed.

(** X14.  Start from a collection of documents written by this session
    through the form, let anything be typed, pressed or received, and
    deliver a snapshot of the collection as it then stands: every row on
    screen has a name and a secondary line that are not empty (the
    description, or "No description provided." when it is empty), names
    the session's [userId] as author and shows a date. *)
Theorem X14_every_row_is_complete :
  forall db userId hs (w : World) snapshot,
    Forall (well_formed userId) (backend w) ->
    let w' := run db userId hs w in
    Permutation snapshot (map acknowledged (backend w')) ->
    let screen :=
      Screen.render userId (state (exec (onSnapshot_next snapshot) w')) in
    Forall (fun r => Screen.row_primary r <> []
                     /\ Screen.row_secondary r <> []
                     /\ Screen.row_addedBy r = userId
                     /\ Screen.row_addedOn r <> None)
           (Screen.rows screen).
Proof.
  intros db userId hs w snapshot Hw w' Hsnap screen; subst screen.
  rewrite rows_render.
  change (services (state (exec (onSnapshot_next snapshot) w')))
    with (Listing.published snapshot w').
  rewrite published_eq.
  apply Forall_map.
  apply (Permutation_Forall
           (Permutation_sym (sort_Permutation _ compareFn _))).
  apply Forall_map.
  apply (Permutation_Forall (Permutation_sym Hsnap)).
  apply Forall_map.
  pose proof (run_keeps_well_formed db userId hs w Hw) as H.
  fold w' in H; revert H; apply Forall_impl.
  intros d (Hn & _ & _ & _ & _ & Hu); simpl.
  repeat split; try assumption;
    [apply descriptionOrDefault_not_empty | discriminate].
Qed.

Lemma X14_every_row_is_complete_witness :
  let hs := [ TypeName (lit " Painting ");
              TypeDescription (lit "   ");
              ClickAdd (AddFulfilled (lit "d1") {| toDate := 1000 |}) ] in
  let w' := run (Some Db) (Some (lit "u1")) hs initialWorld in
  let screen :=
    Screen.render (Some (lit "u1"))
      (state (exec (onSnapshot_next (map acknowledged (backend w'))) w')) in
  Forall (well_formed (Some (lit "u1"))) (backend initialWorld)
  /\ map Screen.row_secondary (Screen.rows screen)
     = [lit "No description provided."]
  /\ Forall (fun r => Screen.row_primary r <> []
                      /\ Screen.row_secondary r <> []
                      /\ Screen.row_addedBy r = Some (lit "u1")
                      /\ Screen.row_addedOn r <> None)
            (Screen.rows screen).
Proof.
  intros hs w' screen.
  assert (H0 : Forall (well_formed (Some (lit "u1"))) (backend initialWorld))
    by constructor.
  split; [exact H0|]; split; [reflexivity|].
  exact (X14_every_row_is_complete
           (Some Db) (Some (lit "u1")) hs initialWorld
           (map acknowledged (backend w')) H0 (Permutation_refl _)).
Defined.

End RowsOnScreen.


(* ===================================================================== *)
(** ** The provider: first load, sign-out, clean-up *)
(* ===================================================================== *)

Section ProviderExtras.
Import Provider Lifecycle.

(** A provider with no listener, no [auth] and nothing queued is left
    alone: nothing that happens changes its state or calls the service. *)
Lemma idle_provider_stays es :
  forall w : World,
    listener w = None -> pending w = [] -> auth (state w) = None ->
    state (run es w) = state w /\ calls (run es w) = calls w.
Proof.
  induction es as [|e es IH]; intros w Hl Hp Ha; simpl;
    [split; reflexivity|].
  assert (H : state (exec (react e) w) = state w
              /\ calls (exec (react e) w) = calls w
              /\ listener (exec (react e) w) = None
              /\ pending (exec (react e) w) = []).
  { destruct w as [st cu li pe ca]; simpl in *; subst li pe.
    destruct e as [settlement|out back|]; simpl.
    - repeat split.
    - unfold handleSignOut, exec, bind, get; simpl; rewrite Ha.
      repeat split.
    - repeat split. }
  destruct H as (Hs & Hc & Hl' & Hp').
  rewrite <- Hs, <- Hc; apply IH; [assumption | assumption|].
  rewrite Hs; exact Ha.
Qed.

(** X15.  When the setup throws, wherever it does, the provider ends
    with the initialisation message in [error] and [loading] off, having
    registered no listener and made no call to the authentication
    service; [auth] is not set, and only the handles obtained before the
    throw are.  Nothing that happens afterwards changes its state or
    reaches the service: the error notice is there to stay and "Sign
    Out" does nothing. *)
Theorem X15_setup_failure_leaves_an_idle_provider :
  forall initialAuthToken setup settlement es,
    setup <> SetupOk ->
    let failed := exec (mount initialAuthToken setup settlement) initialWorld in
    (error (state failed)
     = Some (lit "Failed to initialize Firebase. Please check the configuration.")
     /\ loading (state failed) = false
     /\ listener failed = None
     /\ calls failed = []
     /\ auth (state failed) = None
     /\ userId (state failed) = None
     /\ app (state failed)
        = match setup with InitializeAppThrows => None | _ => Some App end
     /\ db (state failed)
        = match setup with GetAuthThrows => Some Firestore.Db | _ => None end)
    /\ state (run es failed) = state failed
    /\ calls (run es failed) = []
    /\ renders_error_alert (state (run es failed)).
Proof.
  intros initialAuthToken setup settlement es Hne failed.
  assert (H : listener failed = None /\ pending failed = []
              /\ auth (state failed) = None /\ calls failed = []
              /\ render (state failed)
                 = ErrorAlert
                     (lit "Failed to initialize Firebase. Please check the configuration.")).
  { subst failed; destruct setup; try contradiction; repeat split. }
  destruct H as (Hl & Hp & Ha & Hc & Hr).
  destruct (idle_provider_stays es failed Hl Hp Ha) as [Hs Hc'].
  split; [subst failed; destruct setup; try contradiction; repeat split|].
  rewrite Hs, Hc', Hc; repeat split.
  eexists; exact Hr.
Qed.

Lemma X15_setup_failure_witness :
  let failed :=
    exec (mount None GetFirestoreThrows (SignedIn {| uid := lit "anon-1" |}))
      initialWorld in
  GetFirestoreThrows <> SetupOk
  /\ app (state failed) = Some App
  /\ db (state failed) = None
  /\ calls (run [SignOutClick SignedOut (SignedIn {| uid := lit "anon-2" |})]
              failed) = [].
Proof.
  intros failed.
  assert (Hne : GetFirestoreThrows <> SetupOk) by discriminate.
  destruct (X15_setup_failure_leaves_an_idle_provider
              None GetFirestoreThrows (SignedIn {| uid := lit "anon-1" |})
              [SignOutClick SignedOut (SignedIn {| uid := lit "anon-2" |})]
              Hne) as [(_ & _ & _ & _ & _ & _ & H1 & H2) (_ & H3 & _)].
  split; [exact Hne|]; split; [exact H1|]; split; [exact H2 | exact H3].
Defined.


(** X17.  On a load where [firebaseAuth.currentUser] is already set when
    the effect runs (line 71), the provider makes no sign-in at all; it
    shows the loading indicator until the listener is told of that user,
    and from then on the form and list, with that user's uid as
    [userId]. *)
Theorem X17_returning_user_is_not_signed_in_again :
  forall initialAuthToken u settlement later,
    let w := exec (mount initialAuthToken SetupOk settlement)
               (returningWorld u) in
    let told := run [Notification later] w in
    calls w = []
    /\ render (state w) = LoadingIndicator
    /\ calls told = []
    /\ userId (state told) = Some (uid u)
    /\ renders_children (state told).
Proof.
  intros initialAuthToken u settlement later; simpl.
  unfold renders_children; repeat split; eexists; reflexivity.
Qed.

(** X18.  When [signOut] itself is rejected, [handleSignOut] makes no
    other call: the user is still signed in and [userId] is unchanged,
    yet "Failed to sign out." is set, which replaces the form and list by
    the error notice.  When [auth] is not set the handler does nothing. *)
Theorem X18_rejected_sign_out_keeps_the_user_and_blocks :
  forall (w : World) a back,
    auth (state w) = Some a ->
    loading (state w) = false ->
    let w' := exec (handleSignOut SignOutRejected back) w in
    calls w' = calls w ++ [SignOut]
    /\ currentUser w' = currentUser w
    /\ userId (state w') = userId (state w)
    /\ pending w' = pending w
    /\ render (state w') = ErrorAlert (lit "Failed to sign out.")
    /\ forall (idle : World) out,
         auth (state idle) = None ->
         exec (handleSignOut out back) idle = idle.
Proof.
  intros w a back Ha Hl w'; subst w'.
  assert (E : exec (handleSignOut SignOutRejected back) w
              = exec (try_catch
                        (signOut SignOutRejected ;;
                         setUserId None ;;
                         signInAnonymously back)
                        (setError (Some (lit "Failed to sign out.")))) w).
  { unfold handleSignOut, exec, bind at 1, get; rewrite Ha; reflexivity. }
  rewrite E; clear E; simpl.
  unfold render; simpl; rewrite Hl.
  repeat split.
  intros idle out Hi; unfold handleSignOut, exec, bind, get; simpl.
  rewrite Hi; reflexivity.
Qed.

Lemma X18_rejected_sign_out_witness :
  let w := run [Notification SignInRejected; Notification SignInRejected]
             (exec (mount None SetupOk (SignedIn {| uid := lit "anon-1" |}))
                initialWorld) in
  let w' := exec (handleSignOut SignOutRejected SignInRejected) w in
  (auth (state w) = Some AuthHandle /\ loading (state w) = false)
  /\ renders_children (state w)
  /\ userId (state w') = Some (lit "anon-1")
  /\ render (state w') = ErrorAlert (lit "Failed to sign out.").
Proof.
  intros w w'.
  destruct (X18_rejected_sign_out_keeps_the_user_and_blocks
              w AuthHandle SignInRejected eq_refl eq_refl)
    as (_ & _ & H1 & _ & H2 & _).
  split; [split; reflexivity|].
  split; [eexists; reflexivity|].
  split; [exact H1 | exact H2].
Defined.

(** X19.  Once an error is on screen ([loading] off, [error] set) it
    stays: no notification, sign-out press or change at the service
    brings back the form and list or the loading indicator, since no
    handler of the provider clears [error] or turns [loading] on. *)
Theorem X19_error_notice_is_permanent :
  forall es (w : World),
    error_shown w ->
    renders_error_alert (state (run es w))
    /\ ~ renders_children (state (run es w))
    /\ render (state (run es w)) <> LoadingIndicator.
Proof.
  intros es w H.
  destruct (error_alert_stays es w H) as [m Hm].
  split; [exists m; exact Hm|].
  unfold renders_children; rewrite Hm; split.
  - intros [v Hv]; discriminate.
  - discriminate.
Qed.

Lemma X19_error_notice_witness :
  let failed := exec (handleSignOut SignOutRejected SignInRejected)
                  (run [Notification SignInRejected;
                        Notification SignInRejected]
                     (exec (mount None SetupOk
                              (SignedIn {| uid := lit "anon-1" |}))
                        initialWorld)) in
  let es := [ SignOutClick SignedOut (SignedIn {| uid := lit "anon-2" |});
              Notification SignInRejected; Notification SignInRejected ] in
  error_shown failed
  /\ userId (state (run es failed)) = Some (lit "anon-2")
  /\ renders_error_alert (state (run es failed)).
Proof.
  intros failed es.
  assert (H : error_shown failed) by (split; reflexivity).
  split; [exact H|]; split; [reflexivity|].
  exact (proj1 (X19_error_notice_is_permanent es failed H)).
Defined.

End ProviderExtras.


Section IdentityInStep.
Import Provider Lifecycle.

Lemma react_in_step e (w : World) : in_step w -> in_step (exec (react e) w).
Proof.
  destruct w as [st cu li pe ca]; unfold in_step; simpl.
  intros [Hl H]; destruct li as [closure|]; [clear Hl | contradiction].
  destruct e as [settlement|out back|]; simpl.
  - unfold deliver, exec, bind at 1, get; simpl.
    destruct pe as [|user rest]; [split; [discriminate | exact H]|].
    unfold settling_userId in *; simpl in *.
    destruct closure as [captured token].
    destruct user as [u|], captured; simpl.
    + destruct (rev rest) eqn:Er; simpl in *; split;
        (discriminate || exact H).
    + destruct (rev rest) eqn:Er; simpl in *; split;
        (discriminate || exact H).
    + destruct (rev rest) eqn:Er; simpl in *; split;
        (discriminate || exact H).
    + unfold exec, bind, modify, authStateChanged, setUserId, signInUser,
        setLoading, setError; simpl.
      destruct token as [[|c token]|], settlement as [u1|]; simpl;
        rewrite ?rev_app_distr; simpl;
        destruct (rev rest) eqn:Er; simpl in *; split;
        first [discriminate | exact H | reflexivity].
  - unfold handleSignOut, exec, bind, get; simpl.
    destruct (auth st); simpl; [|split; [discriminate | exact H]].
    unfold settling_userId in *; simpl in *.
    destruct out, back; simpl; rewrite ?rev_app_distr; simpl;
      split; first [discriminate | exact H | reflexivity].
  - unfold settling_userId; simpl; rewrite rev_app_distr; simpl.
    split; [discriminate | reflexivity].
Qed.

Lemma run_in_step es : forall w : World, in_step w -> in_step (run es w).
Proof.
  induction es as [|e es IH]; intros w H; simpl; [exact H|].
  apply IH, react_in_step, H.
Qed.

(** X20.  While the listener is registered, the component and the
    authentication service stay in step through any sequence of
    notifications, sign-out presses (however the service settles them)
    and sign-outs from elsewhere: whenever no notification is left to
    deliver, [userId] is the uid of the user the service holds, and
    [null] when it holds none. *)
Theorem X20_userId_is_the_uid_of_the_current_user :
  forall es (w : World),
    in_step w ->
    let w' := run es w in
    in_step w'
    /\ (pending w' = [] ->
        userId (state w') = option_map uid (currentUser w')).
Proof.
  intros es w H w'; subst w'.
  pose proof (run_in_step es w H) as [Hl Hs].
  split; [split; assumption|].
  intros Hp; unfold settling_userId in Hs; rewrite Hp in Hs; exact Hs.
Qed.

Lemma X20_userId_witness :
  let w := exec (mount None SetupOk (SignedIn {| uid := lit "anon-1" |}))
             initialWorld in
  let es := [ Notification SignInRejected; Notification SignInRejected;
              SignOutClick SignedOut (SignedIn {| uid := lit "anon-2" |});
              Notification SignInRejected; Notification SignInRejected;
              SignedOutElsewhere; Notification SignInRejected ] in
  in_step w
  /\ pending (run es w) = []
  /\ currentUser (run es w) = None
  /\ userId (state (run es w)) = None.
Proof.
  intros w es.
  assert (H : in_step w) by (split; [discriminate | reflexivity]).
  destruct (X20_userId_is_the_uid_of_the_current_user es w H) as [_ H'].
  split; [exact H|]; split; [reflexivity|]; split; [reflexivity|].
  exact (H' eq_refl).
Defined.

Lemma react_unsubscribed e (w : World) :
  from_service e = true ->
  listener w = None ->
  state (exec (react e) w) = state w
  /\ calls (exec (react e) w) = calls w
  /\ listener (exec (react e) w) = None.
Proof.
  intros He Hl; destruct w as [st cu li pe ca]; simpl in Hl; subst li.
  destruct e as [settlement|out back|]; try discriminate; simpl.
  - unfold deliver, exec, bind, get; simpl.
    destruct pe; repeat split.
  - repeat split.
Qed.

(** X21.  Once the clean-up of the effect has run, nothing the
    authentication service does reaches the component: its state is not
    set again and no call is made, whatever notifications and sign-outs
    from elsewhere follow. *)
Theorem X21_nothing_is_set_after_the_clean_up :
  forall es (w : World),
    forallb from_service es = true ->
    let w' := exec (cleanup SetupOk) w in
    listener w' = None
    /\ state w' = state w
    /\ state (run es w') = state w
    /\ calls (run es w') = calls w.
Proof.
  intros es w Hes w'.
  assert (H : forall v : World,
             listener v = None ->
             state (run es v) = state v /\ calls (run es v) = calls v).
  { induction es as [|e es IH]; intros v Hv; simpl;
      [split; reflexivity|].
    simpl in Hes; apply andb_prop in Hes; destruct Hes as [He Hes].
    destruct (react_unsubscribed e v He Hv) as (Hs & Hc & Hl).
    rewrite <- Hs, <- Hc; apply IH; assumption. }
  destruct (H w' eq_refl) as [Hs Hc].
  repeat split; assumption.
Qed.

Lemma X21_nothing_is_set_witness :
  let w := run [Notification SignInRejected; Notification SignInRejected]
             (exec (mount None SetupOk (SignedIn {| uid := lit "anon-1" |}))
                initialWorld) in
  let es := [SignedOutElsewhere; Notification SignInRejected] in
  forallb from_service es = true
  /\ userId (state (run es w)) = None
  /\ userId (state (run es (exec (cleanup SetupOk) w)))
     = Some (lit "anon-1").
Proof.
  intros w es.
  destruct (X21_nothing_is_set_after_the_clean_up es w eq_refl)
    as (_ & _ & H & _).
  split; [reflexivity|]; split; [reflexivity|].
  exact (f_equal userId H).
Defined.

End IdentityInStep.


(* ===================================================================== *)
(** ** [App]: the listing under the provider *)
(* ===================================================================== *)

Section AppExtras.
Import Provider.

(** X22.  Between a press on "Sign Out" whose calls succeed and the
    delivery of the notifications they cause, the form and list are on
    screen with [userId] unset: the listings subscription is closed, a
    press on "Add Service" sends nothing and answers "Service name cannot
    be empty." whatever the name typed, and a press on a delete button
    does nothing at all.  Once the notifications are delivered the
    subscription is open again, provided the new uid is not empty. *)
Theorem X22_listing_is_disconnected_during_sign_out :
  forall (w : World) a d closure u s1 s2,
    auth (state w) = Some a ->
    db (state w) = Some d ->
    loading (state w) = false ->
    error (state w) = None ->
    listener w = Some closure ->
    pending w = [] ->
    let clicked := exec (handleSignOut SignedOut (SignedIn u)) w in
    let settled := run [Notification s1; Notification s2] clicked in
    App.content_context (state clicked) = Some (Some d, None)
    /\ App.listening (state clicked) = false
    /\ (forall settlement (c : Content.World),
          let c' := exec (App.clickAdd (state clicked) settlement) c in
          Content.requests c' = Content.requests c
          /\ Content.submitError (Content.state c')
             = Some (lit "Service name cannot be empty."))
    /\ (forall serviceId settlement (c : Content.World),
          exec (App.clickDelete (state clicked) serviceId settlement) c = c)
    /\ (closure_loading closure = loading initialState ->
        App.listening (state settled) = truthy_string (uid u)).
Proof.
  intros w a d closure u s1 s2 Ha Hd Hl He Hli Hp clicked settled.
  subst clicked settled; rewrite (handleSignOut_fulfilled w a u Ha).
  destruct w as [st cu li pe ca]; simpl in *; subst li pe.
  destruct st as [ap dbv au ui lo er]; simpl in *; subst.
  unfold App.content_context, App.listening, App.clickAdd, App.clickDelete,
    App.content_context; simpl.
  split; [reflexivity|]; split; [reflexivity|].
  split; [|split].
  - intros settlement c; split; reflexivity.
  - intros serviceId settlement c; reflexivity.
  - destruct closure as [captured token]; simpl; intros ->; simpl.
    unfold Content.subscribes; simpl.
    destruct (truthy_string (uid u)); reflexivity.
Qed.

Lemma X22_listing_is_disconnected_witness :
  let w := run [Notification SignInRejected; Notification SignInRejected]
             (exec (mount None SetupOk (SignedIn {| uid := lit "anon-1" |}))
                initialWorld) in
  let clicked :=
    exec (handleSignOut SignedOut (SignedIn {| uid := lit "anon-2" |})) w in
  let typed := exec (Content.onChange_name (lit "Plumbing"))
                 Content.initialWorld in
  let c' := exec (App.clickAdd (state clicked)
                    (Firestore.AddFulfilled (lit "d1")
                       {| Firestore.toDate := 1000 |})) typed in
  (auth (state w) = Some AuthHandle /\ db (state w) = Some Firestore.Db
   /\ loading (state w) = false /\ error (state w) = None
   /\ pending w = [])
  /\ App.listening (state w) = true
  /\ App.listening (state clicked) = false
  /\ Content.requests c' = []
  /\ Content.submitError (Content.state c')
     = Some (lit "Service name cannot be empty.").
Proof.
  intros w clicked typed c'.
  destruct (X22_listing_is_disconnected_during_sign_out
              w AuthHandle Firestore.Db
              {| closure_loading := true; closure_initialAuthToken := None |}
              {| uid := lit "anon-2" |} SignInRejected SignInRejected
              eq_refl eq_refl eq_refl eq_refl eq_refl eq_refl)
    as (_ & H1 & H2 & _).
  destruct (H2 (Firestore.AddFulfilled (lit "d1")
                  {| Firestore.toDate := 1000 |}) typed) as [H3 H4].
  split; [repeat split|]; split; [reflexivity|]; split; [exact H1|].
  split; [exact H3 | exact H4].
Defined.


End AppExtras.


Section ProviderNever.
Import Provider Lifecycle.

Lemma react_makes_no_call e (w : World) :
  from_service e = true ->
  (forall closure, listener w = Some closure ->
                   closure_loading closure = loading initialState) ->
  calls (exec (react e) w) = calls w
  /\ listener (exec (react e) w) = listener w.
Proof.
  intros He Hc; destruct w as [st cu li pe ca]; simpl in *.
  destruct e as [settlement|out back|]; try discriminate; simpl.
  - unfold deliver, exec, bind at 1, get; simpl.
    destruct pe as [|user rest]; [split; reflexivity|].
    destruct li as [[captured token]|]; [|split; reflexivity].
    pose proof (Hc _ eq_refl) as E; simpl in E; subst captured.
    destruct user; split; reflexivity.
  - split; reflexivity.
Qed.

(** X24.  With the listener the mount effect registers, the provider
    never signs in on its own: whatever notifications it is given and
    however often the user is signed out from elsewhere, it makes no
    call to the authentication service, so that only a press on "Sign
    Out" or a reload signs the user in again. *)
Theorem X24_provider_never_signs_in_on_its_own :
  forall es (w : World),
    forallb from_service es = true ->
    (forall closure, listener w = Some closure ->
                     closure_loading closure = loading initialState) ->
    calls (run es w) = calls w.
Proof.
  induction es as [|e es IH]; intros w Hes Hc; simpl; [reflexivity|].
  simpl in Hes; apply andb_prop in Hes; destruct Hes as [He Hes].
  destruct (react_makes_no_call e w He Hc) as [Hcalls Hl].
  rewrite <- Hcalls; apply IH; [exact Hes|].
  rewrite Hl; exact Hc.
Qed.

Lemma X24_provider_never_signs_in_witness :
  let w := run [Notification SignInRejected; Notification SignInRejected]
             (exec (mount None SetupOk (SignedIn {| uid := lit "anon-1" |}))
                initialWorld) in
  let es := [ SignedOutElsewhere;
              Notification (SignedIn {| uid := lit "anon-2" |});
              Notification (SignedIn {| uid := lit "anon-3" |}) ] in
  (forallb from_service es = true
   /\ listener w = Some {| closure_loading := true;
                           closure_initialAuthToken := None |})
  /\ calls (run es w) = [SignInAnonymously]
  /\ userId (state (run es w)) = None.
Proof.
  intros w es.
  assert (Hc : forall closure, listener w = Some closure ->
                               closure_loading closure = loading initialState).
  { intros closure E; injection E as <-; reflexivity. }
  pose proof (X24_provider_never_signs_in_on_its_own es w eq_refl Hc) as H.
  split; [split; reflexivity|]; split; [exact H | reflexivity].
Defined.

Lemma react_keeps_loading_off e :
  preserves (fun w : World => loading (state w) = false) (react e).
Proof.
  destruct e as [settlement|out back|]; simpl.
  - unfold deliver.
    apply preserves_bind; [apply preserves_get | intros w].
    destruct (pending w) as [|user rest];
      [apply preserves_ret|].
    destruct (listener w) as [closure|]; [|apply preserves_ret].
    unfold authStateChanged, signInUser, signInWithCustomToken,
      signInAnonymously, signIn, record_call, become,
      setUserId, setLoading, setError.
    destruct user as [u|];
      [|destruct (closure_loading closure);
        [|destruct (closure_initialAuthToken closure) as [token|];
          [destruct (truthy_string token)|]]];
      simpl; try destruct settlement;
      keeps_by ltac:(intros ? ?; simpl; auto).
  - unfold handleSignOut.
    apply preserves_bind; [apply preserves_get | intros w].
    unfold signOut, signInAnonymously, signIn, record_call, become,
      setUserId, setError.
    destruct (truthy_object (auth (state w))), out, back;
      keeps_by ltac:(intros ? ?; simpl; auto).
  - unfold signedOutElsewhere, become;
      keeps_by ltac:(intros ? ?; simpl; auto).
Qed.

(** X25.  Once the loading indicator is gone it does not come back: no
    notification, sign-out press or change at the service turns
    [loading] on again, so that a sign-in made after the first load is
    never shown as loading. *)
Theorem X25_loading_indicator_never_returns :
  forall es (w : World),
    loading (state w) = false ->
    loading (state (run es w)) = false
    /\ render (state (run es w)) <> LoadingIndicator.
Proof.
  intros es w H.
  assert (Hl : loading (state (run es w)) = false).
  { revert w H; induction es as [|e es IH]; intros w H; simpl;
      [exact H|].
    apply IH, react_keeps_loading_off, H. }
  split; [exact Hl|].
  unfold render; rewrite Hl.
  destruct (error (state (run es w))) as [m|]; [destruct (truthy_string m)|];
    discriminate.
Qed.

Lemma X25_loading_indicator_witness :
  let w := exec (mount None SetupOk (SignedIn {| uid := lit "anon-1" |}))
             initialWorld in
  let es := [ Notification SignInRejected; Notification SignInRejected;
              SignOutClick SignedOut (SignedIn {| uid := lit "anon-2" |}) ] in
  loading (state w) = false
  /\ userId (state (run es w)) = None
  /\ render (state (run es w)) <> LoadingIndicator.
Proof.
  intros w es.
  destruct (X25_loading_indicator_never_returns es w eq_refl) as [_ H].
  split; [reflexivity|]; split; [reflexivity | exact H].
Defined.

End ProviderNever.
